(** * Verification of [5a_merge_reports.py]

    A shallow embedding of the report merger of
    [SEIR_Foundations/Lab5/python/5a_merge_reports.py]: the severity
    normaliser, the generic finding extractor, the de-duplicator, the
    prompt builder, the fallback renderer and the reporting branch of
    [main], followed by the properties proved about them.

    Modelling conventions.
    - Python text is a [string] of 8-bit characters, exact for ASCII
      text: the case mappings and the white-space class are the ASCII
      ones, and characters from 128 on are left alone by [upper], [lower]
      and [strip].  The one non-ASCII character of the program, the em
      dash of the by-source listing, is carried as its three UTF-8 bytes.
    - A parsed JSON document is the inductive type [json]; [JNull] is
      Python's [None], so a missing key and a key bound to [null] are both
      read as [JNull] by [dict.get].  A float is carried by the text
      [str] prints for it.
    - A Python [dict] built by [json.loads] is an association list in
      insertion order (its keys are pairwise distinct in a parsed
      document); the alias table and the groups of the renderer are
      [gmap]s and the [seen] set of [dedupe] is a [gset].
    - The generator [walk] is structural recursion on the finite tree;
      [walk_within] is the same traversal under the interpreter's
      recursion limit, which raises [RecursionError] when the nesting of
      the document exceeds the frames the interpreter still allows. *)

From Stdlib Require Import ZArith NArith Ascii DecimalString Lia.
From stdpp Require Import base list strings gmap sets sorting.

(** ** Python text primitives *)

Module Py.

(** Code-point tests, on the code of a character. *)
Definition code (c : ascii) : N := N_of_ascii c.

(** [str.isspace] on one ASCII character: TAB..CR, FS..US and SPACE. *)
Definition isspace (c : ascii) : bool :=
  let n := code c in
  ((9 <=? n) && (n <=? 13) || (28 <=? n) && (n <=? 32))%N.

Definition upper_char (c : ascii) : ascii :=
  let n := code c in
  if ((97 <=? n) && (n <=? 122))%N then ascii_of_N (n - 32) else c.

Definition lower_char (c : ascii) : ascii :=
  let n := code c in
  if ((65 <=? n) && (n <=? 90))%N then ascii_of_N (n + 32) else c.

Fixpoint smap (f : ascii → ascii) (s : string) : string :=
  match s with
  | EmptyString => EmptyString
  | String c r => String (f c) (smap f r)
  end.

(** [s.upper()] and [s.lower()]. *)
Definition upper : string → string := smap upper_char.
Definition lower : string → string := smap lower_char.

Fixpoint lstrip (s : string) : string :=
  match s with
  | EmptyString => EmptyString
  | String c r => if isspace c then lstrip r else s
  end.

Fixpoint rstrip (s : string) : string :=
  match s with
  | EmptyString => EmptyString
  | String c r =>
      match rstrip r with
      | EmptyString => if isspace c then EmptyString else String c EmptyString
      | r' => String c r'
      end
  end.

(** [s.strip()]. *)
Definition strip (s : string) : string := rstrip (lstrip s).

(** The slice [s[:n]]. *)
Fixpoint take (n : nat) (s : string) : string :=
  match n, s with
  | S m, String c r => String c (take m r)
  | _, _ => EmptyString
  end.

(** [sep.join(l)]. *)
Fixpoint join (sep : string) (l : list string) : string :=
  match l with
  | [] => ""
  | [x] => x
  | x :: r => x +:+ sep +:+ join sep r
  end.

(** [str(n)] for an integer. *)
Definition str_of_Z (z : Z) : string := NilZero.string_of_int (Z.to_int z).
Definition str_of_nat (n : nat) : string := NilZero.string_of_uint (Nat.to_uint n).

Fixpoint has_char (c : ascii) (s : string) : bool :=
  match s with
  | EmptyString => false
  | String a r => bool_decide (a = c) || has_char c r
  end.

(** Characters that are awkward inside a literal. *)
Definition dquote : ascii := ascii_of_N 34.
Definition squote : ascii := ascii_of_N 39.
Definition backslash : ascii := ascii_of_N 92.
Definition newline : string := String (ascii_of_N 10) EmptyString.

Definition hex_digit (n : N) : ascii :=
  if (n <? 10)%N then ascii_of_N (48 + n) else ascii_of_N (87 + n).

(** Two lower-case hexadecimal digits of a code below 256. *)
Definition hex2 (n : N) : string :=
  String (hex_digit (n / 16)) (String (hex_digit (n mod 16)) EmptyString).

(** [repr] of a [str]: single quotes unless the text holds a single quote
    and no double quote; the quote and the backslash are escaped, TAB, LF
    and CR get their letters, other control characters are printed in
    hexadecimal. *)
Definition repr_char (q : ascii) (c : ascii) : string :=
  let n := code c in
  if bool_decide (c = q) || bool_decide (c = backslash)
  then String backslash (String c EmptyString)
  else if (n =? 9)%N then String backslash "t"
  else if (n =? 10)%N then String backslash "n"
  else if (n =? 13)%N then String backslash "r"
  else if ((n <? 32) || (n =? 127))%N then String backslash "x" +:+ hex2 n
  else String c EmptyString.

Fixpoint sflat (f : ascii → string) (s : string) : string :=
  match s with
  | EmptyString => EmptyString
  | String c r => f c +:+ sflat f r
  end.

Definition repr_str (s : string) : string :=
  let q := if has_char squote s && negb (has_char dquote s) then dquote else squote in
  String q (sflat (repr_char q) s) +:+ String q EmptyString.

End Py.

(** ** Parsed documents *)

Set Warnings "-register-all,-clear-no-such-hyp".

(** The value [json.loads] returns.  [JFloat r] is the float whose [str]
    is [r]; a mapping lists its entries in insertion order. *)
Inductive json : Type :=
| JNull
| JBool (b : bool)
| JInt (z : Z)
| JFloat (r : string)
| JStr (s : string)
| JList (l : list json)
| JDict (d : list (string * json)).

Abbreviation dict := (list (string * json)).

(** Python's truth value of a document: [None], [False], zero, and the
    empty text, list and mapping are false. *)
Definition truthy (v : json) : bool :=
  match v with
  | JNull => false
  | JBool b => b
  | JInt z => negb (z =? 0)%Z
  | JFloat r => negb (bool_decide (r = "0.0") || bool_decide (r = "-0.0"))
  | JStr s => negb (bool_decide (s = EmptyString))
  | JList l => negb (bool_decide (l = []))
  | JDict d => negb (bool_decide (d = []))
  end.

(** [repr(v)]. *)
Fixpoint py_repr (v : json) : string :=
  match v with
  | JNull => "None"
  | JBool b => if b then "True" else "False"
  | JInt z => Py.str_of_Z z
  | JFloat r => r
  | JStr s => Py.repr_str s
  | JList l => "[" +:+ Py.join ", " (map py_repr l) +:+ "]"
  | JDict d =>
      "{" +:+ Py.join ", " (map (λ kv, Py.repr_str kv.1 +:+ ": " +:+ py_repr kv.2) d)
          +:+ "}"
  end.

(** [str(v)]: the text itself for a [str], [repr] otherwise. *)
Definition py_str (v : json) : string :=
  match v with
  | JStr s => s
  | _ => py_repr v
  end.

(** [a or b]. *)
Definition py_or (a b : json) : json := if truthy a then a else b.
Infix "|||" := py_or (at level 50, left associativity).

Fixpoint lookup_key (k : string) (d : dict) : option json :=
  match d with
  | [] => None
  | (k', v) :: r => if bool_decide (k' = k) then Some v else lookup_key k r
  end.

(** [d.get(k)]: [None] when the key is missing. *)
Definition get (d : dict) (k : string) : json := default JNull (lookup_key k d).

(** ** Severity normaliser *)

Definition SEV_ORDER : list string :=
  ["CRITICAL"; "HIGH"; "MEDIUM"; "LOW"; "INFO"; "UNSPECIFIED"].

(** The alias table local to [normalize_sev]. *)
Definition mapping : gmap string string :=
  list_to_map
    [("CRIT", "CRITICAL"); ("SEVERE", "HIGH"); ("MODERATE", "MEDIUM");
     ("INFORMATIONAL", "INFO")].

Definition normalize_sev (sev : json) : string :=
  if negb (truthy sev) then "UNSPECIFIED"
  else
    let s := Py.upper (Py.strip (py_str sev)) in
    if bool_decide (default s (mapping !! s) ∈ SEV_ORDER)
    then default s (mapping !! s)
    else "UNSPECIFIED".

(** ** Finding extractor *)

Record Finding : Type := mkFinding {
  source : string;
  title : string;
  severity : string;
  description : string;
  resource : string;
  cve : json
}.

(** The generator [walk]: every mapping of the tree, parents before
    children, entries and items in order. *)
Fixpoint walk (x : json) : list dict :=
  match x with
  | JDict d => d :: flat_map (λ kv, walk kv.2) d
  | JList l => flat_map walk l
  | _ => []
  end.

(** [{k.lower() for k in d.keys()}]. *)
Definition lowered_keys (d : dict) : gset string :=
  list_to_set (map (λ kv, Py.lower kv.1) d).

(** [any(k in keys for k in ks)]. *)
Definition any_in (keys : gset string) (ks : list string) : bool :=
  existsb (λ k, bool_decide (k ∈ keys)) ks.

(** The guard of the loop body. *)
Definition finding_shaped (d : dict) : bool :=
  let keys := lowered_keys d in
  any_in keys ["severity"; "level"; "risk"; "priority"]
  && any_in keys ["title"; "name"; "check"; "rule"; "id"].

(** The record appended for a mapping that passes the guard. *)
Definition finding_of (source : string) (d : dict) : Finding :=
  let title := get d "title" ||| get d "name" ||| get d "check" ||| get d "rule"
               ||| get d "id" in
  let sev := get d "severity" ||| get d "level" ||| get d "risk" ||| get d "priority" in
  let desc := get d "description" ||| get d "message" ||| get d "details"
              ||| JStr EmptyString in
  let resource := get d "resource" ||| get d "file" ||| get d "path" ||| get d "target"
                  ||| JStr EmptyString in
  let cve := get d "cve" ||| get d "cves" ||| JStr EmptyString in
  {| source := source;
     title := Py.take 200 (py_str title);
     severity := normalize_sev sev;
     description := Py.take 2000 (py_str desc);
     resource := Py.take 500 (py_str resource);
     cve := cve |}.

(** The loop over [walk(obj)], threading the list [findings]. *)
Definition extract_step (source : string) (findings : list Finding) (d : dict)
  : list Finding :=
  if finding_shaped d then findings ++ [finding_of source d] else findings.

Definition extract_findings_generic (obj : json) (source : string) : list Finding :=
  foldl (extract_step source) [] (walk obj).

(** ** De-duplicator *)

Abbreviation DedupKey := (string * string * string)%type.

Definition dedup_key (f : Finding) : DedupKey :=
  (Py.lower (title f), Py.lower (resource f), severity f).

(** The loop of [dedupe], threading [seen] and [out]. *)
Fixpoint dedupe_loop (seen : gset DedupKey) (out : list Finding) (findings : list Finding)
  : list Finding :=
  match findings with
  | [] => out
  | f :: rest =>
      let key := dedup_key f in
      if bool_decide (key ∈ seen) then dedupe_loop seen out rest
      else dedupe_loop (seen ∪ {[key]}) (out ++ [f]) rest
  end.

Definition dedupe (findings : list Finding) : list Finding :=
  dedupe_loop ∅ [] findings.

(** ** JSON printer *)

(** [json.dumps(v, indent=2)] with the default [ensure_ascii]. *)
Module Dumps.

Definition escape_char (c : ascii) : string :=
  let n := Py.code c in
  if bool_decide (c = Py.dquote) || bool_decide (c = Py.backslash)
  then String Py.backslash (String c EmptyString)
  else if (n =? 8)%N then String Py.backslash "b"
  else if (n =? 9)%N then String Py.backslash "t"
  else if (n =? 10)%N then String Py.backslash "n"
  else if (n =? 12)%N then String Py.backslash "f"
  else if (n =? 13)%N then String Py.backslash "r"
  else if ((n <? 32) || (127 <=? n))%N then String Py.backslash "u00" +:+ Py.hex2 n
  else String c EmptyString.

Definition text (s : string) : string :=
  String Py.dquote (Py.sflat escape_char s) +:+ String Py.dquote EmptyString.

Definition float (r : string) : string :=
  if bool_decide (r = "nan") then "NaN"
  else if bool_decide (r = "inf") then "Infinity"
  else if bool_decide (r = "-inf") then "-Infinity"
  else r.

Fixpoint spaces (n : nat) : string :=
  match n with
  | O => EmptyString
  | S m => String " " (spaces m)
  end.

(** The line break followed by the indentation of nesting level [level]. *)
Definition newline_indent (level : nat) : string :=
  Py.newline +:+ spaces (2 * level).

Fixpoint dumps_at (level : nat) (v : json) : string :=
  match v with
  | JNull => "null"
  | JBool b => if b then "true" else "false"
  | JInt z => Py.str_of_Z z
  | JFloat r => float r
  | JStr s => text s
  | JList l =>
      match l with
      | [] => "[]"
      | _ =>
          "[" +:+ newline_indent (S level)
              +:+ Py.join ("," +:+ newline_indent (S level)) (map (dumps_at (S level)) l)
              +:+ newline_indent level +:+ "]"
      end
  | JDict d =>
      match d with
      | [] => "{}"
      | _ =>
          "{" +:+ newline_indent (S level)
              +:+ Py.join ("," +:+ newline_indent (S level))
                    (map (λ kv, text kv.1 +:+ ": " +:+ dumps_at (S level) kv.2) d)
              +:+ newline_indent level +:+ "}"
      end
  end.

Definition dumps : json → string := dumps_at 0.

End Dumps.

(** ** Summarisation request *)

(** The mapping appended to [items] for one finding. *)
Definition prompt_item (f : Finding) : json :=
  JDict [("source", JStr (source f)); ("severity", JStr (severity f));
         ("title", JStr (title f)); ("resource", JStr (resource f));
         ("description", JStr (description f))].

Definition q (s : string) : string :=
  String Py.dquote s +:+ String Py.dquote EmptyString.

(** The two triple-quoted literals, line by line. *)
Definition rules : string :=
  Py.newline +:+ Py.join Py.newline
    ["You are a security report MERGER. You must follow these rules:";
     "- You may summarize and group findings.";
     "- You MUST NOT invent severities, CVEs, or risk scores.";
     "- Preserve each tool's severity exactly as provided in the input.";
     "- If severity is missing, use " +:+ q "UNSPECIFIED" +:+ ".";
     "- Do not include exploit steps or payloads.";
     "- Output in Markdown using the requested sections exactly."]
  +:+ Py.newline.

Definition request : string :=
  Py.newline +:+ Py.join Py.newline
    ["Create a consolidated report with:";
     "1) Executive Summary (no new severities)";
     "2) Findings by Source Tool";
     "3) Findings by Severity (as-reported)";
     "4) Findings by Category (OWASP / IaC / Cloud / Dependencies)";
     "5) Suspected Duplicates (only if obvious)";
     "6) Analyst Next Actions checklist";
     "7) Appendix: Evidence counts per tool";
     "";
     "Use short bullets. Be precise. If a field is missing, say " +:+ q "Unknown" +:+ "."]
  +:+ Py.newline.

Definition build_llm_prompt (findings : list Finding) : string :=
  let items := map prompt_item (take 400 findings) in
  Py.strip rules +:+ Py.newline +:+ Py.newline +:+ Py.strip request
    +:+ Py.newline +:+ Py.newline +:+ "INPUT_FINDINGS_JSON:" +:+ Py.newline
    +:+ Dumps.dumps (JList items).

(** ** Fallback renderer *)

(** [by_source.setdefault(f["source"], []).append(f)]. *)
Definition by_source_add (m : gmap string (list Finding)) (f : Finding)
  : gmap string (list Finding) :=
  <[source f := default [] (m !! source f) ++ [f]]> m.

Definition by_source (findings : list Finding) : gmap string (list Finding) :=
  foldl by_source_add ∅ findings.

(** The order [sorted] puts the items of [by_source] in: by source name. *)
Definition item_le (a b : string * list Finding) : Prop := String.le a.1 b.1.

#[global] Instance item_le_dec : RelDecision item_le.
Proof. intros a b. unfold item_le. apply _. Defined.

Definition sorted_items (m : gmap string (list Finding)) : list (string * list Finding) :=
  merge_sort item_le (map_to_list m).

(** The em dash of the listing, as its three UTF-8 bytes. *)
Definition emdash : string :=
  String (ascii_of_N 226) (String (ascii_of_N 128) (String (ascii_of_N 148) EmptyString)).

(** [sum(1 for x in findings if x['severity']==sev)]. *)
Definition sev_count (sev : string) (findings : list Finding) : nat :=
  sum_list (map (λ _, 1) (filter (λ x, severity x = sev) findings)).

Definition summary_lines (findings : list Finding) : list string :=
  ["# Consolidated Security Report (Fallback)" +:+ Py.newline;
   "## Executive Summary" +:+ Py.newline;
   "- Total findings: " +:+ Py.str_of_nat (length findings);
   "- Severity counts (as-reported):"]
  ++ map (λ sev, "  - " +:+ sev +:+ ": " +:+ Py.str_of_nat (sev_count sev findings))
       SEV_ORDER.

Definition source_line (f : Finding) : string :=
  Py.strip ("- [" +:+ severity f +:+ "] " +:+ title f +:+ " " +:+ emdash +:+ " "
            +:+ resource f).

Definition source_block (entry : string * list Finding) : list string :=
  ("### " +:+ entry.1 +:+ " (" +:+ Py.str_of_nat (length entry.2) +:+ ")")
  :: map source_line (take 30 entry.2).

Definition source_lines (findings : list Finding) : list string :=
  (Py.newline +:+ "## Findings by Source Tool" +:+ Py.newline)
  :: flat_map source_block (sorted_items (by_source findings)).

Definition severity_line (f : Finding) : string :=
  "- " +:+ title f +:+ " (" +:+ source f +:+ ")".

Definition severity_block (findings : list Finding) (sev : string) : list string :=
  let items := filter (λ x, severity x = sev) findings in
  match items with
  | [] => []
  | _ =>
      ("### " +:+ sev +:+ " (" +:+ Py.str_of_nat (length items) +:+ ")")
      :: map severity_line (take 50 items)
  end.

Definition severity_lines (findings : list Finding) : list string :=
  (Py.newline +:+ "## Findings by Severity (as-reported)" +:+ Py.newline)
  :: flat_map (severity_block findings) SEV_ORDER.

Definition action_lines : list string :=
  [Py.newline +:+ "## Analyst Next Actions" +:+ Py.newline;
   "- [ ] Validate Critical/High findings directly in the environment";
   "- [ ] Confirm scope and false positives";
   "- [ ] Create remediation tickets with owners + deadlines";
   "- [ ] Add/adjust detections for repeated patterns" +:+ Py.newline].

Definition report_lines (findings : list Finding) : list string :=
  summary_lines findings ++ source_lines findings ++ severity_lines findings
  ++ action_lines.

Definition render_fallback_report (findings : list Finding) : string :=
  Py.join Py.newline (report_lines findings).

(** ** Collaborator call and the branches of [main] *)

(** A call that returns [a] or raises an exception whose [str] is [e]. *)
Inductive result (A : Type) : Type :=
| Ok (a : A)
| Raise (e : string).
Arguments Ok {A} a.
Arguments Raise {A} e.

Definition type_name (v : json) : string :=
  match v with
  | JNull => "NoneType"
  | JBool _ => "bool"
  | JInt _ => "int"
  | JFloat _ => "float"
  | JStr _ => "str"
  | JList _ => "list"
  | JDict _ => "dict"
  end.

(** The text of the [AttributeError] for [v.attr]. *)
Definition no_attribute (v : json) (attr : string) : string :=
  "'" +:+ type_name v +:+ "' object has no attribute '" +:+ attr +:+ "'".

Inductive llm_mode : Type := llm_none | llm_ollama.

Section Collaborator.

(** The exchange with the collaborator: building the payload from the
    model name and the prompt, the POST to the URL with its timeout, and
    the decoding of the body by [json.loads].  It yields the decoded
    document [data] or raises. *)
Variable exchange : string → string → string → result json.

Definition call_local_llm_ollama (prompt model url : string) : result string :=
  match exchange model prompt url with
  | Raise e => Raise e
  | Ok data =>
      match data with
      | JDict d =>
          match default (JStr EmptyString) (lookup_key "response" d) with
          | JStr s => Ok (Py.strip s)
          | v => Raise (no_attribute v "strip")
          end
      | v => Raise (no_attribute v "get")
      end
  end.

(** The text [md] that [main] writes to [consolidated_security_report.md]. *)
Definition main_report (llm : llm_mode) (model url : string)
    (all_findings : list Finding) : string :=
  match llm with
  | llm_ollama =>
      let prompt := build_llm_prompt all_findings in
      match call_local_llm_ollama prompt model url with
      | Ok md => md
      | Raise e =>
          "# Consolidated Security Report" +:+ Py.newline +:+ Py.newline
            +:+ "LLM call failed: " +:+ e +:+ Py.newline +:+ Py.newline
            +:+ render_fallback_report all_findings
      end
  | llm_none => render_fallback_report all_findings
  end.

End Collaborator.

(** The list [main] persists: the input files in sorted order, each with
    its stem and what [safe_load_json] returned for it ([None] when the file
    does not load); a file whose data is [None] is skipped. *)
Definition main_step (all_findings : list Finding) (file : string * json)
  : list Finding :=
  match file.2 with
  | JNull => all_findings
  | data => all_findings ++ extract_findings_generic data file.1
  end.

Definition main_findings (files : list (string * json)) : list Finding :=
  dedupe (foldl main_step [] files).

(** ** Reference definitions used by the statements *)

(** The alias table as the specification words it. *)
Definition alias_spec (s : string) : string :=
  if bool_decide (s = "CRIT") then "CRITICAL"
  else if bool_decide (s = "SEVERE") then "HIGH"
  else if bool_decide (s = "MODERATE") then "MEDIUM"
  else if bool_decide (s = "INFORMATIONAL") then "INFO"
  else s.

(** The normaliser as the specification words it: a missing or empty
    token gives [UNSPECIFIED]; otherwise the alias table is applied to the
    trimmed, upper-cased token and the result is kept when it is a member
    of the taxonomy. *)
Definition normalize_spec (sev : json) : string :=
  if truthy sev then
    let t := alias_spec (Py.upper (Py.strip (py_str sev))) in
    if bool_decide (t ∈ SEV_ORDER) then t else "UNSPECIFIED"
  else "UNSPECIFIED".


(** A finding that differs from [f] at most in where it came from, in its
    description and in its [cve]: same title, resource and severity. *)
Definition retold (f : Finding) (source' description' : string) (cve' : json)
  : Finding :=
  {| source := source'; title := title f; severity := severity f;
     description := description'; resource := resource f; cve := cve' |}.

(** [nest n x]: the document [x] under [n] one-item sequences. *)
Fixpoint nest (n : nat) (x : json) : json :=
  match n with
  | O => x
  | S m => JList [nest m x]
  end.

(** [occurs d x]: the mapping [d] is a node of the tree [x], at any
    depth, under sequences and mappings alike. *)
Inductive occurs (d : dict) : json → Prop :=
| occurs_here : occurs d (JDict d)
| occurs_entry (k : string) (v : json) (d' : dict) :
    (k, v) ∈ d' → occurs d v → occurs d (JDict d')
| occurs_item (v : json) (l : list json) :
    v ∈ l → occurs d v → occurs d (JList l).

(** The five derived fields, their precedence chains and the operand that
    closes the chain when the source gives one. *)
Inductive field : Type := Title | Severity | Description | Resource | Cve.

Definition chain (fld : field) : list string :=
  match fld with
  | Title => ["title"; "name"; "check"; "rule"; "id"]
  | Severity => ["severity"; "level"; "risk"; "priority"]
  | Description => ["description"; "message"; "details"]
  | Resource => ["resource"; "file"; "path"; "target"]
  | Cve => ["cve"; "cves"]
  end.

(** What the finding stores for a field, as a document. *)
Definition stored (fld : field) (f : Finding) : json :=
  match fld with
  | Title => JStr (title f)
  | Severity => JStr (severity f)
  | Description => JStr (description f)
  | Resource => JStr (resource f)
  | Cve => cve f
  end.

(** What the extractor makes of the value [v] it selected for a field. *)
Definition converted (fld : field) (v : json) : json :=
  match fld with
  | Title => JStr (Py.take 200 (py_str v))
  | Severity => JStr (normalize_sev v)
  | Description => JStr (Py.take 2000 (py_str v))
  | Resource => JStr (Py.take 500 (py_str v))
  | Cve => v
  end.

(** The value of the first key of [ks] that is present in [d]: the
    selection rule in the specification's words. *)
Fixpoint first_present (d : dict) (ks : list string) : option json :=
  match ks with
  | [] => None
  | k :: r =>
      match lookup_key k d with
      | Some v => Some v
      | None => first_present d r
      end
  end.

(** Every key of [ks] is missing from [d] or bound to a false value. *)
Definition all_falsy (d : dict) (ks : list string) : bool :=
  forallb (λ k, negb (truthy (get d k))) ks.

(** A report that ends with the fallback rendering of [findings]. *)
Definition fallback_rendered (md : string) (findings : list Finding) : Prop :=
  ∃ notice : string, md = notice +:+ render_fallback_report findings.

(** The failure notice [main] puts before the fallback report. *)
Definition failure_notice (e : string) : string :=
  "# Consolidated Security Report" +:+ Py.newline +:+ Py.newline
    +:+ "LLM call failed: " +:+ e +:+ Py.newline +:+ Py.newline.

(** The true counts over the full list. *)
Definition count_severity (sev : string) (findings : list Finding) : nat :=
  length (filter (λ x, severity x = sev) findings).

Definition count_source (src : string) (findings : list Finding) : nat :=
  length (filter (λ x, source x = src) findings).

(** [f] with its [cve] replaced. *)
Definition with_cve (c : json) (f : Finding) : Finding :=
  {| source := source f; title := title f; severity := severity f;
     description := description f; resource := resource f; cve := c |}.

(** [v1 or v2 or ... or vn]: the first true operand, else the last one. *)
Fixpoint or_all (vs : list json) : json :=
  match vs with
  | [] => JNull
  | [v] => v
  | v :: r => v ||| or_all r
  end.

(** The operands of the chain of a field in [finding_of]: the lookups of
    its keys, closed by the empty text where the source closes it so. *)
Definition operands (fld : field) (d : dict) : list json :=
  (get d <$> chain fld)
  ++ match fld with
     | Title | Severity => []
     | Description | Resource | Cve => [JStr EmptyString]
     end.

(** The fixed text of the request, up to the findings. *)
Definition prompt_preamble : string :=
  Py.strip rules +:+ Py.newline +:+ Py.newline +:+ Py.strip request
    +:+ Py.newline +:+ Py.newline +:+ "INPUT_FINDINGS_JSON:" +:+ Py.newline.

(** The sources the by-source section lists, in its order. *)
Definition source_names (findings : list Finding) : list string :=
  (sorted_items (by_source findings)).*1.

(** The documents of the specification's scenarios. *)
Definition open_port_a : json :=
  JList [JDict [("severity", JStr "High"); ("title", JStr "Open port");
                ("resource", JStr "10.0.0.1")]].

Definition open_port_b : json :=
  JList [JDict [("level", JStr "HIGH"); ("name", JStr "Open port");
                ("file", JStr "10.0.0.1")]].

Definition open_port_finding (source : string) : Finding :=
  {| source := source; title := "Open port"; severity := "HIGH";
     description := EmptyString; resource := "10.0.0.1"; cve := JStr EmptyString |}.

(** ** The report generator of [malgus_bedrock_ir_generator_local.py] *)

Module Malgus.

(** Sequencing of calls that may raise: [x ← r; k] runs [k] on the value
    of [r] and passes on what [r] raises. *)
#[global] Instance result_bind : MBind result :=
  λ A B k r, match r with
             | Ok a => k a
             | Raise e => Raise e
             end.

Definition usage : string :=
  "Usage: malgus_bedrock_ir_generator_local.py <model_id> <evidence.json> <template.md>".

Definition system : string :=
  "You are an SRE. Use only evidence. If unknown, say Unknown. Do not leak secrets.".

(** The f-string [user]. *)
Definition user (template : string) (evidence : json) : string :=
  "Output MUST follow this template headings exactly:" +:+ Py.newline
    +:+ template +:+ Py.newline +:+ Py.newline +:+ "EVIDENCE JSON:" +:+ Py.newline
    +:+ Dumps.dumps evidence.

Definition body (template : string) (evidence : json) : json :=
  JDict [("anthropic_version", JStr "bedrock-2023-05-31");
         ("max_tokens", JInt 2000);
         ("temperature", JFloat "0.2");
         ("system", JStr system);
         ("messages",
          JList [JDict [("role", JStr "user");
                        ("content",
                         JList [JDict [("type", JStr "text");
                                       ("text", JStr (user template evidence))]])]])].

(** [v == s] for a text [s]: only a text equals a text. *)
Definition eq_text (v : json) (s : string) : bool :=
  match v with
  | JStr t => bool_decide (t = s)
  | _ => false
  end.

Fixpoint chars (s : string) : list json :=
  match s with
  | EmptyString => []
  | String c r => JStr (String c EmptyString) :: chars r
  end.

(** The values a [for] loop over [v] goes through: the items of a list,
    the characters of a text, the keys of a mapping; anything else is not
    iterable. *)
Definition iterate (v : json) : result (list json) :=
  match v with
  | JList l => Ok l
  | JStr s => Ok (chars s)
  | JDict d => Ok (map (λ kv, JStr kv.1) d)
  | _ => Raise ("'" +:+ type_name v +:+ "' object is not iterable")
  end.

(** The comprehension [[p["text"] for p in ... if p.get("type") == "text"]]:
    the first segment that has no [get], or passes the test and has no
    [text], raises. *)
Fixpoint texts (segments : list json) : result (list json) :=
  match segments with
  | [] => Ok []
  | p :: rest =>
      match p with
      | JDict pd =>
          if eq_text (get pd "type") "text" then
            match lookup_key "text" pd with
            | Some v => vs ← texts rest; Ok (v :: vs)
            | None => Raise "'text'"
            end
          else texts rest
      | _ => Raise (no_attribute p "get")
      end
  end.

(** The check [str.join] makes of its items, from item [i] on. *)
Fixpoint joinable (i : nat) (vs : list json) : result (list string) :=
  match vs with
  | [] => Ok []
  | JStr s :: rest => ss ← joinable (S i) rest; Ok (s :: ss)
  | v :: _ =>
      Raise ("sequence item " +:+ Py.str_of_nat i +:+ ": expected str instance, "
               +:+ type_name v +:+ " found")
  end.

(** The text [out] computed from the decoded response [payload]. *)
Definition out (payload : json) : result string :=
  match payload with
  | JDict d =>
      segments ← iterate (default (JList []) (lookup_key "content" d));
      vs ← texts segments;
      ss ← joinable 0 vs;
      Ok (Py.join Py.newline ss)
  | _ => Raise (no_attribute payload "get")
  end.

(** How a run ends: the usage line and an exit status, the printed
    report, or an uncaught exception. *)
Inductive outcome : Type :=
| Exit (status : nat) (printed : string)
| Printed (text : string)
| Uncaught (e : string).

Section Main.

(** The surroundings of [main]: loading the evidence file as JSON,
    reading the template file, and the model invocation, from the model
    identifier and the request body to the decoded response body. *)
Variable load_json : string → result json.
Variable read_text : string → result string.
Variable invoke_model : string → json → result json.

Definition run (model_id evidence_path template_path : string) : result string :=
  evidence ← load_json evidence_path;
  template ← read_text template_path;
  payload ← invoke_model model_id (body template evidence);
  out payload.

(** [main], from [sys.argv]. *)
Definition main (argv : list string) : outcome :=
  if bool_decide (length argv < 4) then Exit 1 usage
  else
    match argv with
    | _ :: model_id :: evidence_path :: template_path :: _ =>
        match run model_id evidence_path template_path with
        | Ok text => Printed text
        | Raise e => Uncaught e
        end
    | _ => Exit 1 usage
    end.

End Main.

(** The text of a segment that the comprehension keeps. *)
Definition kept_text (p : json) : option string :=
  match p with
  | JDict pd =>
      if eq_text (get pd "type") "text" then
        match lookup_key "text" pd with
        | Some (JStr s) => Some s
        | _ => None
        end
      else None
  | _ => None
  end.

(** A segment the comprehension and the join accept: a mapping that, if
    its type is the text [text], holds a text under [text]. *)
Definition well_formed_segment (p : json) : Prop :=
  match p with
  | JDict pd =>
      eq_text (get pd "type") "text" = true →
      ∃ s, lookup_key "text" pd = Some (JStr s)
  | _ => False
  end.

End Malgus.

(** ** The traversal under the interpreter's recursion limit *)

(** [walk] as the interpreter runs it when it allows [frames] more nested
    frames: every level of [yield from walk(...)] runs the body of [walk]
    one frame deeper, and entering a frame beyond the allowance raises
    [RecursionError], which is [None] here.  The source catches nothing,
    so the error leaves the generator and the loop that consumes it. *)
Fixpoint walk_within (frames : nat) (x : json) : option (list dict) :=
  match frames with
  | O => None
  | S n =>
      match x with
      | JDict d => dss ← mapM (λ kv, walk_within n kv.2) d; Some (d :: concat dss)
      | JList l => dss ← mapM (walk_within n) l; Some (concat dss)
      | _ => Some []
      end
  end.

(** [extract_findings_generic] under the same allowance: the findings,
    or [None] when the walk raises. *)
Definition extract_within (frames : nat) (obj : json) (source : string)
  : option (list Finding) :=
  ds ← walk_within frames obj; Some (foldl (extract_step source) [] ds).

(** The number of nested frames the walk of a document needs: one for the
    document itself and one more for each level of nesting below it. *)
Fixpoint height (x : json) : nat :=
  match x with
  | JDict d => S (max_list_with (λ kv, height kv.2) d)
  | JList l => S (max_list_with height l)
  | _ => 1
  end.

(** The traversal the specification asks for, in its words: it stops
    descending past the depth [bound] and never fails. *)
Fixpoint walk_to (bound : nat) (x : json) : list dict :=
  match bound with
  | O => []
  | S b =>
      match x with
      | JDict d => d :: flat_map (λ kv, walk_to b kv.2) d
      | JList l => flat_map (walk_to b) l
      | _ => []
      end
  end.

(** ** Text *)

Lemma append_cons (a : ascii) (s t : string) : String a s +:+ t = String a (s +:+ t).
Proof. reflexivity. Qed.

Lemma append_assoc (s t u : string) : (s +:+ t) +:+ u = s +:+ (t +:+ u).
Proof. induction s as [|a s IH]; [done|]. by rewrite !append_cons, IH. Qed.

(** ** The severity normaliser *)

Lemma mapping_get (s : string) : default s (mapping !! s) = alias_spec s.
Proof.
  unfold mapping, alias_spec. cbn [list_to_map foldr uncurry fst snd].
  rewrite !lookup_insert, lookup_empty. cbn [fst snd].
  repeat (case_decide; case_bool_decide; try congruence; simpl); try reflexivity.
Qed.

Lemma normalize_sev_spec (sev : json) : normalize_sev sev = normalize_spec sev.
Proof.
  unfold normalize_sev, normalize_spec.
  rewrite mapping_get. by destruct (truthy sev).
Qed.

Lemma normalize_sev_in_taxonomy (sev : json) : normalize_sev sev ∈ SEV_ORDER.
Proof.
  unfold normalize_sev. destruct (negb (truthy sev)).
  - unfold SEV_ORDER. repeat constructor.
  - case_bool_decide; [done | unfold SEV_ORDER; repeat constructor].
Qed.

Lemma taxonomy_nonempty (s : string) : s ∈ SEV_ORDER → s ≠ EmptyString.
Proof.
  unfold SEV_ORDER. intros Hs ->.
  repeat (apply elem_of_cons in Hs as [Hs|Hs]; [discriminate|]).
  by apply elem_of_nil in Hs.
Qed.

(** C2.  [normalize_sev] is a total function whose result is a member of
    the taxonomy for every value, of any type, [None] included; it is the
    algorithm of the specification: a missing or empty token gives
    UNSPECIFIED, otherwise the alias table is applied to the trimmed,
    upper-cased token and the result is kept when the taxonomy has it and
    replaced by UNSPECIFIED when not; and the sample tokens normalise as
    stated. *)
Theorem normalize_sev_total_alias_correct :
  (∀ sev, normalize_sev sev ∈ SEV_ORDER)
  ∧ (∀ sev, normalize_sev sev = normalize_spec sev)
  ∧ normalize_sev JNull = "UNSPECIFIED"
  ∧ normalize_sev (JStr EmptyString) = "UNSPECIFIED"
  ∧ alias_spec "CRIT" = "CRITICAL" ∧ alias_spec "SEVERE" = "HIGH"
  ∧ alias_spec "MODERATE" = "MEDIUM" ∧ alias_spec "INFORMATIONAL" = "INFO"
  ∧ normalize_sev (JStr "crit") = "CRITICAL"
  ∧ normalize_sev (JStr "Severe") = "HIGH"
  ∧ normalize_sev (JStr "banana") = "UNSPECIFIED".
Proof.
  split; [apply normalize_sev_in_taxonomy|].
  split; [apply normalize_sev_spec|].
  repeat split; vm_compute; reflexivity.
Qed.

(** ** The extractor *)

Lemma extract_loop (source : string) (acc : list Finding) (ds : list dict) :
  foldl (extract_step source) acc ds
  = acc ++ (finding_of source <$> filter (λ d, finding_shaped d) ds).
Proof.
  revert acc. induction ds as [|d ds IH]; intros acc; cbn [foldl].
  - by rewrite filter_nil, app_nil_r.
  - rewrite IH, filter_cons. unfold extract_step.
    destruct (finding_shaped d); simpl; [|done].
    by rewrite <- app_assoc.
Qed.

(** One finding per finding-shaped mapping of the walk, in walk order. *)
Lemma extract_findings_generic_walk (obj : json) (source : string) :
  extract_findings_generic obj source
  = finding_of source <$> filter (λ d, finding_shaped d) (walk obj).
Proof. unfold extract_findings_generic. by rewrite extract_loop. Qed.

(** C1.  Every finding the extractor produces, for every document tree
    and every source identifier, carries a severity that is a member of
    the canonical taxonomy, hence never raw text and never empty. *)
Theorem extracted_severity_in_taxonomy (obj : json) (source : string) :
  Forall (λ f, severity f ∈ SEV_ORDER ∧ severity f ≠ EmptyString)
    (extract_findings_generic obj source).
Proof.
  rewrite extract_findings_generic_walk. apply Forall_fmap, Forall_forall.
  intros d _. simpl. split.
  - apply normalize_sev_in_taxonomy.
  - apply taxonomy_nonempty, normalize_sev_in_taxonomy.
Qed.

(** ** The de-duplicator *)

Section Dedupe.
Implicit Types (seen : gset DedupKey) (f g : Finding) (fs out : list Finding).

(** The accumulator [out] is only ever extended at its end. *)
Lemma dedupe_loop_out seen out fs :
  dedupe_loop seen out fs = out ++ dedupe_loop seen [] fs.
Proof.
  revert seen out. induction fs as [|f fs IH]; intros seen out; simpl.
  - by rewrite app_nil_r.
  - case_bool_decide; [apply IH|].
    rewrite (IH _ (out ++ [f])), (IH _ [f]). by rewrite <- app_assoc.
Qed.

Lemma dedupe_loop_cons seen f fs :
  dedupe_loop seen [] (f :: fs)
  = if bool_decide (dedup_key f ∈ seen) then dedupe_loop seen [] fs
    else f :: dedupe_loop (seen ∪ {[dedup_key f]}) [] fs.
Proof. simpl. case_bool_decide; [done|]. by rewrite dedupe_loop_out. Qed.

Lemma dedupe_loop_sublist seen fs : dedupe_loop seen [] fs `sublist_of` fs.
Proof.
  revert seen. induction fs as [|f fs IH]; intros seen.
  - constructor.
  - rewrite dedupe_loop_cons. case_bool_decide.
    + by apply sublist_cons.
    + by apply sublist_skip.
Qed.

Lemma dedupe_loop_fresh seen fs f :
  f ∈ dedupe_loop seen [] fs → dedup_key f ∉ seen.
Proof.
  revert seen. induction fs as [|g fs IH]; intros seen.
  - simpl. by intros ?%elem_of_nil.
  - rewrite dedupe_loop_cons. case_bool_decide as Hg; [apply IH|].
    intros [->|Hf%IH]%elem_of_cons; [done|]. set_solver.
Qed.

Lemma dedupe_loop_NoDup seen fs : NoDup (dedup_key <$> dedupe_loop seen [] fs).
Proof.
  revert seen. induction fs as [|g fs IH]; intros seen.
  - simpl. constructor.
  - rewrite dedupe_loop_cons. case_bool_decide as Hg; [apply IH|].
    rewrite fmap_cons. apply NoDup_cons. split; [|apply IH].
    intros (f & Hk & Hf%dedupe_loop_fresh)%list_elem_of_fmap.
    rewrite <- Hk in Hf. set_solver.
Qed.

(** A list with pairwise distinct keys, none of them seen, is returned as
    it is. *)
Lemma dedupe_loop_fixed seen fs :
  NoDup (dedup_key <$> fs) → (∀ f, f ∈ fs → dedup_key f ∉ seen) →
  dedupe_loop seen [] fs = fs.
Proof.
  revert seen. induction fs as [|g fs IH]; intros seen Hnd Hseen; [done|].
  rewrite fmap_cons in Hnd. apply NoDup_cons in Hnd as [Hg Hnd].
  rewrite dedupe_loop_cons, bool_decide_eq_false_2 by (apply Hseen; left).
  f_equal. apply IH; [done|]. intros f Hf.
  assert (dedup_key f ∉ seen) by (apply Hseen; by right).
  assert (dedup_key f ≠ dedup_key g).
  { intros Heq. apply Hg. rewrite <- Heq. by apply list_elem_of_fmap_2. }
  set_solver.
Qed.

Lemma dedupe_loop_app seen fs1 fs2 :
  dedupe_loop seen [] (fs1 ++ fs2)
  = dedupe_loop seen [] fs1
    ++ dedupe_loop (seen ∪ list_to_set (dedup_key <$> fs1)) [] fs2.
Proof.
  revert seen. induction fs1 as [|f fs1 IH]; intros seen.
  - simpl. f_equal. set_solver.
  - rewrite <- app_comm_cons, !dedupe_loop_cons, fmap_cons, list_to_set_cons.
    case_bool_decide as Hf.
    + rewrite IH. do 2 f_equal. set_solver.
    + rewrite IH, <- app_comm_cons. do 3 f_equal. set_solver.
Qed.

(** The keys that survive, together with the seen ones, are the keys that
    came in together with the seen ones. *)
Lemma dedupe_loop_keys seen fs :
  list_to_set (dedup_key <$> dedupe_loop seen [] fs) ∪ seen
  = list_to_set (dedup_key <$> fs) ∪ seen.
Proof.
  revert seen. induction fs as [|f fs IH]; intros seen; [done|].
  rewrite dedupe_loop_cons. case_bool_decide as Hf.
  - rewrite IH, fmap_cons, list_to_set_cons. set_solver.
  - rewrite !fmap_cons, !list_to_set_cons.
    specialize (IH (seen ∪ {[dedup_key f]})).
    apply set_eq. intros k. pose proof (proj1 (set_eq _ _) IH k) as Hk.
    rewrite !elem_of_union, !elem_of_singleton in Hk.
    rewrite !elem_of_union, !elem_of_singleton. revert Hk.
    generalize (k ∈@{gset DedupKey} list_to_set (dedup_key <$> fs)),
      (k ∈ seen), (k = dedup_key f).
    generalize
      (k ∈@{gset DedupKey}
         list_to_set (dedup_key <$> dedupe_loop (seen ∪ {[dedup_key f]}) [] fs)).
    clear. tauto.
Qed.

End Dedupe.

(** C3.  [dedupe] returns a subsequence of its input in the input's
    order; no two survivors share a [dedup_key]; the keys that survive are
    exactly the keys that came in; the finding at any position survives
    exactly when no earlier finding has its key; and of two findings with
    one key that differ in source, description or cve only the first
    survives. *)
Theorem dedupe_first_wins (fs : list Finding) :
  dedupe fs `sublist_of` fs
  ∧ NoDup (dedup_key <$> dedupe fs)
  ∧ list_to_set (dedup_key <$> dedupe fs) =@{gset DedupKey}
      list_to_set (dedup_key <$> fs)
  ∧ (∀ pre f post, ∃ tail,
       tail `sublist_of` post
       ∧ dedupe (pre ++ f :: post)
         = dedupe pre
           ++ (if bool_decide (dedup_key f ∈ dedup_key <$> pre) then [] else [f])
           ++ tail)
  ∧ (∀ f source' description' cve',
       dedupe [f; retold f source' description' cve'] = [f]).
Proof.
  unfold dedupe. split_and!.
  - apply dedupe_loop_sublist.
  - apply dedupe_loop_NoDup.
  - pose proof (dedupe_loop_keys ∅ fs) as H.
    rewrite !(right_id_L ∅ (∪)) in H. exact H.
  - intros pre f post. rewrite dedupe_loop_app, dedupe_loop_cons.
    rewrite (left_id_L ∅ (∪)).
    rewrite (bool_decide_ext _ _ (elem_of_list_to_set _ _)).
    destruct (bool_decide (dedup_key f ∈ dedup_key <$> pre));
      (eexists; split; [apply dedupe_loop_sublist|]); simpl; reflexivity.
  - intros f source' description' cve'.
    rewrite dedupe_loop_cons.
    rewrite bool_decide_eq_false_2 by apply not_elem_of_empty.
    rewrite dedupe_loop_cons, bool_decide_eq_true_2; [done|].
    apply elem_of_union_r, elem_of_singleton. reflexivity.
Qed.

(** C4.  [dedupe] is idempotent. *)
Theorem dedupe_idempotent (fs : list Finding) : dedupe (dedupe fs) = dedupe fs.
Proof.
  unfold dedupe. apply dedupe_loop_fixed.
  - apply dedupe_loop_NoDup.
  - intros f _. set_solver.
Qed.

(** ** The traversal *)

Lemma walk_occurs (d : dict) (x : json) : occurs d x → d ∈ walk x.
Proof.
  induction 1 as [|k v d' Hkv _ IH|v l Hv _ IH]; cbn [walk].
  - left.
  - right. apply list_elem_of_In, in_flat_map. exists (k, v).
    split; by apply list_elem_of_In.
  - apply list_elem_of_In, in_flat_map. exists v.
    split; by apply list_elem_of_In.
Qed.

(** *** Under the recursion limit *)

Lemma height_positive (x : json) : 1 ≤ height x.
Proof. destruct x; cbn [height]; lia. Qed.

Lemma height_nest (n : nat) (x : json) : height (nest n x) = n + height x.
Proof.
  induction n as [|n IH]; [done|].
  cbn [nest height max_list_with]. rewrite IH. lia.
Qed.

(** A child that needs more frames than are left makes the whole [mapM]
    raise; otherwise every child is walked. *)
Lemma mapM_within {A B} (f : A → option B) (g : A → B) (h : A → nat)
    (n : nat) (l : list A) :
  Forall (λ y, f y = if bool_decide (h y ≤ n) then Some (g y) else None) l →
  mapM f l = if bool_decide (max_list_with h l ≤ n) then Some (g <$> l) else None.
Proof.
  induction 1 as [|y l Hy _ IH]; cbn [mapM max_list_with fmap list_fmap].
  - by rewrite bool_decide_eq_true_2 by lia.
  - rewrite Hy, IH. repeat case_bool_decide; try lia; done.
Qed.

Lemma concat_fmap_flat_map {A B} (g : A → list B) (l : list A) :
  concat (g <$> l) = flat_map g l.
Proof. induction l as [|y l IH]; [done|]. cbn. by rewrite IH. Qed.

(** The walk under the limit is the whole walk when the frames suffice
    for the height of the document, and raises otherwise. *)
Lemma walk_within_height (frames : nat) (x : json) :
  walk_within frames x
  = if bool_decide (height x ≤ frames) then Some (walk x) else None.
Proof.
  revert x. induction frames as [|n IH]; intros x.
  - pose proof (height_positive x). cbn [walk_within].
    by rewrite bool_decide_eq_false_2 by lia.
  - destruct x as [| | | | |l|d]; cbn [walk_within height walk];
      try by rewrite bool_decide_eq_true_2 by lia.
    + rewrite (mapM_within _ walk height n) by (apply Forall_forall; auto).
      case_bool_decide; cbn.
      * rewrite bool_decide_eq_true_2 by lia. by rewrite concat_fmap_flat_map.
      * by rewrite bool_decide_eq_false_2 by lia.
    + rewrite (mapM_within _ (λ kv, walk kv.2) (λ kv, height kv.2) n)
        by (apply Forall_forall; auto).
      case_bool_decide; cbn.
      * rewrite bool_decide_eq_true_2 by lia. by rewrite concat_fmap_flat_map.
      * by rewrite bool_decide_eq_false_2 by lia.
Qed.

Lemma extract_within_height (frames : nat) (obj : json) (source : string) :
  extract_within frames obj source
  = if bool_decide (height obj ≤ frames)
    then Some (extract_findings_generic obj source) else None.
Proof.
  unfold extract_within. rewrite walk_within_height.
  by case_bool_decide.
Qed.

(** C5, as the code has it.  The traversal has no depth guard of its own.
    When the interpreter allows [frames] more nested frames, a document
    whose nesting needs no more than that is walked completely, every
    mapping at every depth, and extraction returns the findings of the
    whole tree; a document nested deeper makes the walk raise
    [RecursionError], and the extraction with it, instead of stopping
    early. *)
Theorem extraction_under_recursion_limit (frames : nat) (obj : json)
    (source : string) :
  walk_within frames obj
  = (if bool_decide (height obj ≤ frames) then Some (walk obj) else None)
  ∧ extract_within frames obj source
    = (if bool_decide (height obj ≤ frames)
       then Some (extract_findings_generic obj source) else None).
Proof. split; [apply walk_within_height | apply extract_within_height]. Qed.

(** A finding-shaped mapping under ten sequences needs twelve frames, ten
    for the sequences, one for the mapping and one for its values: it is
    found when the frames suffice, the walk raises when they do not, and
    a traversal that stops at depth five misses it. *)
Example nested_ten_deep :
  let x := nest 10 (JDict [("severity", JStr "High"); ("title", JStr "Open port")]) in
  (λ fs : list Finding, title <$> fs) <$> extract_within 12 x "scan"
  = Some ["Open port"]
  ∧ extract_within 11 x "scan" = None
  ∧ foldl (extract_step "scan") [] (walk_to 5 x) = [].
Proof. split_and!; vm_compute; reflexivity. Qed.

(** C5, as stated, fails: whatever frames the interpreter allows, no
    bound makes the extractor behave as a traversal that stops descending
    past the bound and never fails. *)
Lemma no_traversal_depth_guard :
  ¬ ∃ frames bound : nat, ∀ (x : json) (source : string),
      extract_within frames x source
      = Some (foldl (extract_step source) [] (walk_to bound x)).
Proof.
  intros (frames & bound & Hguard).
  specialize (Hguard (nest frames JNull) "scan").
  rewrite extract_within_height, height_nest in Hguard.
  rewrite bool_decide_eq_false_2 in Hguard by (cbn [height]; lia).
  discriminate Hguard.
Qed.

(** ** Field derivation *)

Lemma py_or_assoc (a b c : json) : (a ||| b) ||| c = a ||| (b ||| c).
Proof. unfold py_or. by destruct (truthy a) eqn:Ha; [rewrite Ha|]. Qed.

(** Every field of the record is the conversion of its [or] chain. *)
Lemma stored_operands (fld : field) (source : string) (d : dict) :
  stored fld (finding_of source d) = converted fld (or_all (operands fld d)).
Proof. destruct fld; cbn; by rewrite ?py_or_assoc. Qed.

Lemma or_all_first_truthy (pre post : list json) (v : json) :
  Forall (λ v', truthy v' = false) pre → truthy v = true →
  or_all (pre ++ v :: post) = v.
Proof.
  intros Hpre Hv. induction Hpre as [|v' pre Hv' _ IH]; simpl.
  - destruct post; [done|]. unfold py_or. by rewrite Hv.
  - destruct (pre ++ v :: post) eqn:E; [by destruct pre|].
    unfold py_or. by rewrite Hv'.
Qed.

Lemma or_all_none_truthy (vs : list json) (v : json) :
  Forall (λ v', truthy v' = false) vs → or_all (vs ++ [v]) = v.
Proof.
  induction 1 as [|v' vs Hv' _ IH]; simpl; [done|].
  destruct (vs ++ [v]) eqn:E; [by destruct vs|].
  unfold py_or. by rewrite Hv'.
Qed.

Lemma all_falsy_Forall (d : dict) (ks : list string) :
  all_falsy d ks = true → Forall (λ v, truthy v = false) (get d <$> ks).
Proof.
  unfold all_falsy. rewrite forallb_forall, Forall_fmap, Forall_forall.
  intros H k Hk%list_elem_of_In. apply negb_true_iff. by apply H.
Qed.

(** C6, as the code has it.  Each of the five fields is derived from the
    first key of its chain whose value is true in Python's sense, under
    case-sensitive lookup: keys before it that are missing or bound to a
    false value are passed over. *)
Theorem first_truthy_key_wins (fld : field) (d : dict) (source : string)
    (pre post : list string) (k : string) :
  chain fld = pre ++ k :: post →
  all_falsy d pre = true →
  truthy (get d k) = true →
  stored fld (finding_of source d) = converted fld (get d k).
Proof.
  intros Hchain Hpre Hk. rewrite stored_operands. unfold operands.
  rewrite Hchain, fmap_app, fmap_cons, <- app_assoc, <- app_comm_cons.
  f_equal. apply or_all_first_truthy; [by apply all_falsy_Forall | done].
Qed.

Lemma first_truthy_key_wins_witness :
  let d := [("title", JStr EmptyString); ("name", JStr "Open port");
            ("severity", JStr "high")] in
  title (finding_of "scan" d) = "Open port".
Proof.
  intros d.
  assert (H : stored Title (finding_of "scan" d) = converted Title (get d "name")).
  { apply (first_truthy_key_wins Title d "scan" ["title"] ["check"; "rule"; "id"]);
      reflexivity. }
  exact (f_equal (λ v, match v with JStr s => s | _ => EmptyString end) H).
Defined.

(** C6, as stated, fails: a key that is present but bound to a false
    value does not win. *)
Lemma first_present_key_does_not_win :
  ¬ ∀ (fld : field) (d : dict) (source : string) (v : json),
      finding_shaped d = true →
      first_present d (chain fld) = Some v →
      stored fld (finding_of source d) = converted fld v.
Proof.
  intros H.
  specialize (H Title
                [("title", JStr EmptyString); ("name", JStr "Open port");
                 ("severity", JStr "high")]
                "scan" (JStr EmptyString)).
  vm_compute in H. specialize (H eq_refl eq_refl). discriminate H.
Qed.

Lemma falsy_str_short (v : json) :
  truthy v = false →
  Py.take 200 (py_str v) = py_str v
  ∧ py_str v
    = match v with
      | JNull => "None"
      | JBool _ => "False"
      | JInt _ => "0"
      | JFloat r => r
      | JStr _ => EmptyString
      | JList _ => "[]"
      | JDict _ => "{}"
      end.
Proof.
  destruct v as [|[]|z|r|s|l|d]; simpl; intros Hv; try done.
  - apply negb_false_iff, Z.eqb_eq in Hv as ->. done.
  - apply negb_false_iff, orb_true_iff in Hv
      as [->%bool_decide_eq_true| ->%bool_decide_eq_true]; done.
  - apply negb_false_iff, bool_decide_eq_true in Hv as ->. done.
  - apply negb_false_iff, bool_decide_eq_true in Hv as ->. done.
  - apply negb_false_iff, bool_decide_eq_true in Hv as ->. done.
Qed.

(** C10, as the code has it.  A finding-shaped mapping none of whose
    identifier-like keys holds a true value still yields a finding; its
    title is the text of [d.get("id")], the last operand of the chain:
    [None] when [id] is missing or null, and the text of the false value
    bound to [id] otherwise (the empty text for an empty text). *)
Theorem falsy_identifiers_title (d : dict) (source : string) :
  finding_shaped d = true →
  all_falsy d (chain Title) = true →
  head (extract_findings_generic (JDict d) source) = Some (finding_of source d)
  ∧ title (finding_of source d)
    = match get d "id" with
      | JNull => "None"
      | JBool _ => "False"
      | JInt _ => "0"
      | JFloat r => r
      | JStr _ => EmptyString
      | JList _ => "[]"
      | JDict _ => "{}"
      end.
Proof.
  intros Hshape Hfalsy. split.
  - rewrite extract_findings_generic_walk. cbn [walk].
    rewrite filter_cons, Hshape. done.
  - pose proof (stored_operands Title source d) as Hst.
    apply all_falsy_Forall in Hfalsy as Hall.
    cbn [chain fmap list_fmap] in Hall.
    repeat match type of Hall with
           | Forall _ (_ :: _) => apply Forall_cons in Hall as [? Hall]
           end.
    assert (Hor : or_all (operands Title d) = get d "id").
    { apply (or_all_none_truthy
               [get d "title"; get d "name"; get d "check"; get d "rule"]).
      repeat constructor; done. }
    rewrite Hor in Hst.
    assert (Ht : title (finding_of source d) = Py.take 200 (py_str (get d "id")))
      by exact (f_equal (λ v, match v with JStr s => s | _ => EmptyString end) Hst).
    rewrite Ht. destruct (falsy_str_short (get d "id")) as [-> ->]; done.
Qed.

Lemma falsy_identifiers_title_witness :
  title (finding_of "scan" [("Title", JStr "Open port"); ("severity", JStr "high")])
  = "None".
Proof.
  exact (proj2 (falsy_identifiers_title
                  [("Title", JStr "Open port"); ("severity", JStr "high")] "scan"
                  eq_refl eq_refl)).
Defined.

(** C10, as stated, fails: with [id] bound to the empty text the title is
    the empty text. *)
Lemma falsy_id_title_is_not_None :
  ¬ ∀ (d : dict) (source : string),
      finding_shaped d = true →
      all_falsy d (chain Title) = true →
      title (finding_of source d) = "None".
Proof.
  intros H.
  specialize (H [("severity", JStr "high"); ("id", JStr EmptyString)] "scan"
                eq_refl eq_refl).
  vm_compute in H. discriminate H.
Qed.

(** ** The reporting branch *)

Section Report.
Variable exchange : string → string → string → result json.

Lemma fallback_report_nonempty (fs : list Finding) :
  render_fallback_report fs ≠ EmptyString.
Proof.
  unfold render_fallback_report, report_lines, summary_lines.
  cbn [app Py.join]. discriminate.
Qed.

(** C7, as the code has it.  With summarisation on: when the exchange
    raises, when the decoded response is not a mapping, or when its
    [response] entry is bound to something that is not text, the report is
    the failure notice followed by the fallback report; when the response
    is a mapping with no [response] entry, the missing text is read as the
    empty text and that empty text is the report. *)
Theorem report_after_collaborator_call (model url : string) (fs : list Finding) :
  let md := main_report exchange llm_ollama model url fs in
  match exchange model (build_llm_prompt fs) url with
  | Raise e => md = failure_notice e +:+ render_fallback_report fs
  | Ok (JDict d) =>
      match lookup_key "response" d with
      | None => md = EmptyString
      | Some (JStr s) => md = Py.strip s
      | Some v => md = failure_notice (no_attribute v "strip")
                         +:+ render_fallback_report fs
      end
  | Ok v => md = failure_notice (no_attribute v "get") +:+ render_fallback_report fs
  end.
Proof.
  unfold main_report, call_local_llm_ollama, failure_notice.
  destruct (exchange model (build_llm_prompt fs) url) as [[| | | | | |d]|e];
    cbn zeta; rewrite ?append_assoc; try reflexivity.
  destruct (lookup_key "response" d) as [[]|]; simpl;
    rewrite ?append_assoc; reflexivity.
Qed.

End Report.

(** C7, as stated, fails: a response that is a mapping without the
    [response] field makes the empty text the report, which is not a
    fallback-rendered report. *)
Lemma missing_field_is_not_folded_into_fallback :
  ¬ ∀ (exchange : string → string → string → result json)
      (model url : string) (fs : list Finding) (d : dict),
      exchange model (build_llm_prompt fs) url = Ok (JDict d) →
      lookup_key "response" d = None →
      fallback_rendered (main_report exchange llm_ollama model url fs) fs.
Proof.
  intros H.
  destruct (H (λ _ _ _, Ok (JDict [("done", JBool true)])) "llama3.1" "url" []
              [("done", JBool true)] eq_refl eq_refl) as [notice Hn].
  cbv [main_report call_local_llm_ollama lookup_key] in Hn. simpl in Hn.
  destruct notice; [|discriminate Hn].
  by apply (fallback_report_nonempty []).
Qed.

(** ** The summarisation request *)

Lemma build_llm_prompt_items (fs : list Finding) :
  build_llm_prompt fs
  = prompt_preamble +:+ Dumps.dumps (JList (prompt_item <$> take 400 fs)).
Proof.
  unfold build_llm_prompt, prompt_preamble. by rewrite !append_assoc.
Qed.

Lemma build_llm_prompt_with_cve (c : json) (fs : list Finding) :
  build_llm_prompt (with_cve c <$> fs) = build_llm_prompt fs.
Proof.
  rewrite !build_llm_prompt_items, <- fmap_take, <- list_fmap_compose.
  reflexivity.
Qed.

(** C9.  The request carries the findings of the first 400 positions, in
    list order, each as the mapping of exactly the five fields source,
    severity, title, resource and description; the [cve] never reaches the
    text, so lists that differ only in [cve] values give the same
    request. *)
Theorem prompt_is_capped_and_cve_free :
  (∀ fs, build_llm_prompt fs
         = prompt_preamble +:+ Dumps.dumps (JList (prompt_item <$> take 400 fs)))
  ∧ (∀ fs : list Finding, length (take 400 fs) ≤ 400 ∧ take 400 fs `prefix_of` fs)
  ∧ (∀ fs, build_llm_prompt fs = build_llm_prompt (take 400 fs))
  ∧ (∀ f, prompt_item f
          = JDict [("source", JStr (source f)); ("severity", JStr (severity f));
                   ("title", JStr (title f)); ("resource", JStr (resource f));
                   ("description", JStr (description f))])
  ∧ (∀ fs c, build_llm_prompt (with_cve c <$> fs) = build_llm_prompt fs)
  ∧ (∀ fs fs', with_cve JNull <$> fs = with_cve JNull <$> fs' →
               build_llm_prompt fs = build_llm_prompt fs').
Proof.
  split; [apply build_llm_prompt_items|].
  split; [intros fs; split; [rewrite length_take; lia | apply prefix_take]|].
  split; [intros fs; by rewrite !build_llm_prompt_items, take_idemp|].
  split; [reflexivity|].
  split.
  - intros fs c. apply build_llm_prompt_with_cve.
  - intros fs fs' Heq.
    rewrite <- (build_llm_prompt_with_cve JNull fs), Heq.
    apply build_llm_prompt_with_cve.
Qed.

Lemma prompt_is_capped_and_cve_free_witness :
  let f := {| source := "scan"; title := "Open port"; severity := "HIGH";
              description := "port 22"; resource := "10.0.0.1";
              cve := JStr "CVE-2024-0001" |} in
  build_llm_prompt [f] = build_llm_prompt [with_cve (JList []) f].
Proof.
  intros f.
  apply (proj2 (proj2 (proj2 (proj2 (proj2 prompt_is_capped_and_cve_free))))).
  reflexivity.
Defined.

(** ** The fallback renderer *)

Section Renderer.
Implicit Types (fs : list Finding) (m : gmap string (list Finding)).

Lemma sev_count_full (sev : string) fs : sev_count sev fs = count_severity sev fs.
Proof.
  unfold sev_count, count_severity.
  induction (filter (λ x, severity x = sev) fs) as [|x l IH]; [done|].
  simpl. by rewrite IH.
Qed.

(** The group of a source after the loop: what was there, then the
    findings of that source in list order. *)
Lemma by_source_foldl m fs (src : string) :
  foldl by_source_add m fs !! src
  = let new := filter (λ x, source x = src) fs in
    if bool_decide (new = []) then m !! src
    else Some (default [] (m !! src) ++ new).
Proof.
  revert m. induction fs as [|f fs IH]; intros m; [done|].
  cbn [foldl]. rewrite IH. cbn zeta. rewrite filter_cons. unfold by_source_add.
  destruct (decide (source f = src)) as [<-|Hne].
  - rewrite lookup_insert_eq. cbn [default].
    rewrite (bool_decide_eq_false_2 (_ :: _ = [])) by done.
    case_bool_decide as Hnil; [by rewrite Hnil|].
    unfold id. by rewrite <- app_assoc.
  - by rewrite lookup_insert_ne.
Qed.

Lemma by_source_lookup fs (src : string) :
  by_source fs !! src
  = let items := filter (λ x, source x = src) fs in
    if bool_decide (items = []) then None else Some items.
Proof. unfold by_source. rewrite by_source_foldl. by rewrite lookup_empty. Qed.

Lemma sorted_items_elem_of fs (src : string) (items : list Finding) :
  (src, items) ∈ sorted_items (by_source fs)
  ↔ items = filter (λ x, source x = src) fs ∧ items ≠ [].
Proof.
  unfold sorted_items. rewrite merge_sort_Permutation, elem_of_map_to_list.
  rewrite by_source_lookup. cbn zeta. case_bool_decide as Hnil.
  - split; [done|]. intros [-> ?]. done.
  - split; [intros [= <-]; done | intros [-> _]; done].
Qed.

Lemma flat_map_fst {A B C} (F : A * B → list C) (G : A → list C) (l : list (A * B)) :
  Forall (λ e, F e = G e.1) l → flat_map F l = flat_map G l.*1.
Proof. induction 1 as [|e l He _ IH]; [done|]. simpl. by rewrite He, IH. Qed.

Lemma source_names_elem_of fs (src : string) :
  src ∈ source_names fs ↔ src ∈ source <$> fs.
Proof.
  unfold source_names. rewrite list_elem_of_fmap. split.
  - intros ([src' items] & -> & [-> Hne]%sorted_items_elem_of). simpl.
    destruct (filter (λ x, source x = src') fs) as [|f l] eqn:E; [done|].
    assert (Hf : f ∈ filter (λ x, source x = src') fs) by (rewrite E; left).
    apply list_elem_of_filter in Hf as [<- Hf]. by apply list_elem_of_fmap_2.
  - intros (f & -> & Hf)%list_elem_of_fmap.
    exists (source f, filter (λ x, source x = source f) fs). split; [done|].
    apply sorted_items_elem_of. split; [done|].
    intros Hnil. assert (Hin : f ∈ filter (λ x, source x = source f) fs)
      by (by apply list_elem_of_filter).
    rewrite Hnil in Hin. by apply elem_of_nil in Hin.
Qed.

#[local] Instance item_le_trans : Transitive item_le.
Proof. intros a b c. unfold item_le. apply transitivity. Qed.

#[local] Instance item_le_total : Total item_le.
Proof. intros a b. unfold item_le. apply total, _. Qed.

(** C8.  The fallback report is the executive summary, the by-source
    section, the by-severity section and the checklist; the summary's
    total is the length of the full list and its histogram shows every
    member of the taxonomy, in taxonomy order, with its count over the
    full list; each source heading and each severity heading shows the
    count over the full list, while only the listings under them are cut
    to 30 and 50 entries; the sources listed are exactly the sources of
    the findings, each once, in sorted order. *)
Theorem fallback_counts_are_full_counts fs :
  render_fallback_report fs
  = Py.join Py.newline
      (summary_lines fs ++ source_lines fs ++ severity_lines fs ++ action_lines)
  ∧ summary_lines fs
    = ["# Consolidated Security Report (Fallback)" +:+ Py.newline;
       "## Executive Summary" +:+ Py.newline;
       "- Total findings: " +:+ Py.str_of_nat (length fs);
       "- Severity counts (as-reported):"]
      ++ map (λ sev, "  - " +:+ sev +:+ ": "
                       +:+ Py.str_of_nat (count_severity sev fs)) SEV_ORDER
  ∧ source_lines fs
    = (Py.newline +:+ "## Findings by Source Tool" +:+ Py.newline)
      :: flat_map
           (λ src, ("### " +:+ src +:+ " ("
                      +:+ Py.str_of_nat (count_source src fs) +:+ ")")
                   :: map source_line (take 30 (filter (λ x, source x = src) fs)))
           (source_names fs)
  ∧ list_to_set (source_names fs) =@{gset string} list_to_set (source <$> fs)
  ∧ NoDup (source_names fs)
  ∧ Sorted String.le (source_names fs)
  ∧ severity_lines fs
    = (Py.newline +:+ "## Findings by Severity (as-reported)" +:+ Py.newline)
      :: flat_map
           (λ sev, if bool_decide (count_severity sev fs = 0) then []
                   else ("### " +:+ sev +:+ " ("
                           +:+ Py.str_of_nat (count_severity sev fs) +:+ ")")
                        :: map severity_line
                             (take 50 (filter (λ x, severity x = sev) fs)))
           SEV_ORDER.
Proof.
  split; [reflexivity|].
  split.
  { unfold summary_lines. f_equal. cbn [map SEV_ORDER].
    by rewrite !sev_count_full. }
  split.
  { unfold source_lines, source_names. f_equal. apply flat_map_fst.
    apply Forall_forall. intros [src items] [-> _]%sorted_items_elem_of.
    reflexivity. }
  split.
  { apply set_eq. intros src. rewrite !elem_of_list_to_set.
    apply source_names_elem_of. }
  split.
  { unfold source_names, sorted_items. rewrite merge_sort_Permutation.
    apply NoDup_fst_map_to_list. }
  split.
  { unfold source_names, sorted_items.
    apply (Sorted_fmap fst item_le String.le); [done|].
    apply (Sorted_merge_sort item_le). }
  unfold severity_lines. f_equal. apply flat_map_ext. intros sev.
  unfold severity_block, count_severity.
  by destruct (filter (λ x, severity x = sev) fs).
Qed.

End Renderer.

(** ** The scenarios of the specification *)

(** Scenario A: one document, one finding of severity HIGH. *)
Example scenario_one_document :
  main_findings [("a", open_port_a)] = [open_port_finding "a"].
Proof. vm_compute. reflexivity. Qed.

(** Scenario B: the two documents give two candidates with one key; the
    one of the first file survives. *)
Example scenario_two_documents :
  extract_findings_generic open_port_a "a" ++ extract_findings_generic open_port_b "b"
  = [open_port_finding "a"; open_port_finding "b"]
  ∧ main_findings [("a", open_port_a); ("b", open_port_b)] = [open_port_finding "a"].
Proof. split; vm_compute; reflexivity. Qed.

(** Scenario C: a document that is a bare text yields nothing. *)
Example scenario_bare_text : extract_findings_generic (JStr "hello") "a" = [].
Proof. reflexivity. Qed.

(** A finding-shaped mapping inside a finding-shaped mapping yields two
    findings, the outer one first. *)
Example nested_findings :
  title <$> extract_findings_generic
              (JDict [("severity", JStr "low"); ("title", JStr "outer");
                      ("evidence", JDict [("risk", JStr "crit"); ("id", JInt 7)])])
              "a"
  = ["outer"; "7"].
Proof. vm_compute. reflexivity. Qed.

(** * Further properties of the code *)

(** ** The extractor, field by field *)

Lemma take_length (n : nat) (s : string) : String.length (Py.take n s) ≤ n.
Proof.
  revert s. induction n as [|n IH]; intros [|c s]; simpl; try lia.
  specialize (IH s). lia.
Qed.

(** X1.  Whatever the document holds, the title of an extracted finding
    has at most 200 characters, its description at most 2000 and its
    resource at most 500. *)
Theorem extracted_fields_bounded (obj : json) (source : string) :
  Forall (λ f, String.length (title f) ≤ 200
               ∧ String.length (description f) ≤ 2000
               ∧ String.length (resource f) ≤ 500)
    (extract_findings_generic obj source).
Proof.
  rewrite extract_findings_generic_walk. apply Forall_fmap, Forall_forall.
  intros d _. cbn [finding_of title description resource compose].
  split_and!; apply take_length.
Qed.

Lemma any_in_lowered (d : dict) (ks : list string) :
  any_in (lowered_keys d) ks = true
  ↔ ∃ k, k ∈ d.*1 ∧ Py.lower k ∈ ks.
Proof.
  unfold any_in, lowered_keys. rewrite existsb_exists. split.
  - intros (k' & Hk'%list_elem_of_In & Hin%bool_decide_eq_true).
    apply elem_of_list_to_set, list_elem_of_In, in_map_iff in Hin
      as ([k v] & <- & Hkv%list_elem_of_In).
    exists k. split; [|done]. apply list_elem_of_fmap. by exists (k, v).
  - intros (k & ([k0 v] & -> & Hkv)%list_elem_of_fmap & Hin).
    exists (Py.lower k0). split; [by apply list_elem_of_In|].
    apply bool_decide_eq_true, elem_of_list_to_set, list_elem_of_In, in_map_iff.
    exists (k0, v). split; [done | by apply list_elem_of_In].
Qed.

(** X2.  A mapping passes the guard exactly when one of its keys,
    lower-cased, is one of severity, level, risk, priority and one of its
    keys, lower-cased, is one of title, name, check, rule, id: the match
    ignores the case of the keys. *)
Theorem finding_shaped_iff (d : dict) :
  finding_shaped d = true
  ↔ (∃ k, k ∈ d.*1 ∧ Py.lower k ∈ ["severity"; "level"; "risk"; "priority"])
    ∧ (∃ k, k ∈ d.*1 ∧ Py.lower k ∈ ["title"; "name"; "check"; "rule"; "id"]).
Proof.
  unfold finding_shaped. cbn zeta.
  by rewrite andb_true_iff, !any_in_lowered.
Qed.

(** X3.  When every key of the chain of a field other than the title is
    missing or bound to a false value, the finding gets the default of the
    field: the severity UNSPECIFIED, the empty text for the description
    and the resource, and the empty text as [cve]. *)
Theorem missing_fields_default (fld : field) (d : dict) (source : string) :
  fld ≠ Title →
  all_falsy d (chain fld) = true →
  stored fld (finding_of source d)
  = JStr (match fld with Severity => "UNSPECIFIED" | _ => EmptyString end).
Proof.
  intros Hfld Hfalsy. rewrite stored_operands.
  apply all_falsy_Forall in Hfalsy as Hall. unfold operands.
  destruct fld; [done| |by rewrite or_all_none_truthy..].
  cbn [chain fmap list_fmap] in Hall.
  repeat match type of Hall with
         | Forall _ (_ :: _) => apply Forall_cons in Hall as [? Hall]
         end.
  assert (Hor : or_all ((get d <$> chain Severity) ++ []) = get d "priority").
  { apply (or_all_none_truthy [get d "severity"; get d "level"; get d "risk"]).
    repeat constructor; done. }
  rewrite Hor. cbn [converted]. unfold normalize_sev.
  by destruct (truthy (get d "priority")).
Qed.

Lemma missing_fields_default_witness :
  severity (finding_of "scan" [("Severity", JStr "High"); ("title", JStr "Open port")])
  = "UNSPECIFIED".
Proof.
  exact (f_equal (λ v, match v with JStr s => s | _ => EmptyString end)
           (missing_fields_default Severity
              [("Severity", JStr "High"); ("title", JStr "Open port")] "scan"
              ltac:(discriminate) eq_refl)).
Defined.

(** ** The traversal, as a relation *)

(** Induction on documents, with the hypothesis for every item of a
    sequence and every value of a mapping. *)
Lemma json_nested_ind (P : json → Prop) :
  P JNull → (∀ b, P (JBool b)) → (∀ z, P (JInt z)) → (∀ r, P (JFloat r)) →
  (∀ s, P (JStr s)) →
  (∀ l, Forall P l → P (JList l)) →
  (∀ d, Forall (λ kv, P kv.2) d → P (JDict d)) →
  ∀ x, P x.
Proof.
  intros Hnull Hbool Hint Hfloat Hstr Hlist Hdict.
  fix IH 1.
  intros [|b|z|r|s|l|d];
    [apply Hnull | apply Hbool | apply Hint | apply Hfloat | apply Hstr | ..].
  - apply Hlist. induction l as [|y l IHl]; constructor; [apply IH | exact IHl].
  - apply Hdict. induction d as [|[k v] d IHd]; constructor; [apply IH | exact IHd].
Qed.

Lemma occurs_walk (d : dict) (x : json) : d ∈ walk x → occurs d x.
Proof.
  induction x as [| | | | |l IH|d' IH] using json_nested_ind; cbn [walk];
    try (by intros ?%elem_of_nil).
  - intros (v & Hv & Hd)%list_elem_of_In%in_flat_map.
    apply list_elem_of_In in Hv, Hd.
    eapply occurs_item; [done|]. rewrite Forall_forall in IH. by apply IH.
  - intros [->|Hin]%elem_of_cons; [constructor|].
    apply list_elem_of_In, in_flat_map in Hin as ([k v] & Hkv & Hd).
    apply list_elem_of_In in Hkv, Hd.
    eapply occurs_entry; [done|]. rewrite Forall_forall in IH.
    by apply (IH (k, v)).
Qed.

(** X4.  The generator [walk] yields exactly the mappings of the tree: a
    mapping is visited if and only if it is a node of the document,
    reached through sequence items and mapping values. *)
Theorem walk_yields_exactly_the_mappings (d : dict) (x : json) :
  d ∈ walk x ↔ occurs d x.
Proof. split; [apply occurs_walk | apply walk_occurs]. Qed.

(** X5.  The extractor appends one finding for each finding-shaped
    mapping of the walk, in walk order, and every finding it returns
    carries the source identifier it was called with. *)
Theorem extract_one_per_shaped_mapping (obj : json) (source' : string) :
  extract_findings_generic obj source'
  = finding_of source' <$> filter (λ d, finding_shaped d) (walk obj)
  ∧ Forall (λ f, source f = source') (extract_findings_generic obj source')
  ∧ length (extract_findings_generic obj source') ≤ length (walk obj).
Proof.
  rewrite extract_findings_generic_walk. split_and!; [done|..].
  - by apply Forall_fmap, Forall_forall.
  - rewrite length_fmap. apply length_filter.
Qed.

Lemma extract_app (source : string) (ds1 ds2 : list dict) :
  foldl (extract_step source) [] (ds1 ++ ds2)
  = foldl (extract_step source) [] ds1 ++ foldl (extract_step source) [] ds2.
Proof. by rewrite !extract_loop, !app_nil_l, filter_app, fmap_app. Qed.

Lemma extract_flat_map {A} (source : string) (g : A → json) (l : list A) :
  foldl (extract_step source) [] (flat_map (λ a, walk (g a)) l)
  = flat_map (λ a, extract_findings_generic (g a) source) l.
Proof.
  induction l as [|a l IH]; [done|].
  cbn [flat_map]. by rewrite extract_app, IH.
Qed.

(** X6.  Extraction follows the shape of the document: the findings of a
    sequence are the findings of its items, in order; the findings of a
    mapping are its own finding, when it is finding-shaped, followed by
    the findings of its values, in order; any other document gives none. *)
Theorem extract_by_structure (source : string) :
  (∀ l, extract_findings_generic (JList l) source
        = flat_map (λ x, extract_findings_generic x source) l)
  ∧ (∀ d, extract_findings_generic (JDict d) source
          = (if finding_shaped d then [finding_of source d] else [])
            ++ flat_map (λ kv, extract_findings_generic kv.2 source) d)
  ∧ (∀ x, match x with JList _ | JDict _ => True
                     | _ => extract_findings_generic x source = [] end).
Proof.
  split_and!.
  - intros l. unfold extract_findings_generic at 1. cbn [walk].
    apply (extract_flat_map source id).
  - intros d. unfold extract_findings_generic at 1. cbn [walk].
    change (d :: ?r) with ([d] ++ r). rewrite extract_app.
    by rewrite (extract_flat_map source snd).
  - by intros [].
Qed.

(** ** The normaliser on text and on other values *)

(** For a text token the test for emptiness is subsumed by the lookup. *)
Lemma normalize_sev_text (s : string) :
  normalize_sev (JStr s)
  = let t := alias_spec (Py.upper (Py.strip s)) in
    if bool_decide (t ∈ SEV_ORDER) then t else "UNSPECIFIED".
Proof.
  rewrite normalize_sev_spec. unfold normalize_spec. cbn [truthy py_str].
  case_bool_decide as Hs; [|done]. subst s. vm_compute. reflexivity.
Qed.

Lemma taxonomy_cases (P : string → Prop) :
  P "CRITICAL" → P "HIGH" → P "MEDIUM" → P "LOW" → P "INFO" → P "UNSPECIFIED" →
  ∀ m, m ∈ SEV_ORDER → P m.
Proof.
  intros ?????? m Hm. unfold SEV_ORDER in Hm.
  repeat (apply elem_of_cons in Hm as [->|Hm]; [assumption|]).
  by apply elem_of_nil in Hm.
Qed.

Lemma canonical_token (s m : string) :
  m ∈ SEV_ORDER → Py.upper (Py.strip s) = m → normalize_sev (JStr s) = m.
Proof.
  intros Hm Hs. rewrite normalize_sev_text, Hs. cbn zeta.
  clear Hs. revert m Hm. apply taxonomy_cases; vm_compute; reflexivity.
Qed.

(** X7.  A text token that, trimmed and upper-cased, is a member of the
    taxonomy normalises to that member: the severity a tool reports in a
    canonical word is kept, whatever its case and surrounding blanks. *)
Theorem canonical_token_kept (s m : string) :
  m ∈ SEV_ORDER →
  Py.upper (Py.strip s) = m →
  normalize_sev (JStr s) = m.
Proof. apply canonical_token. Qed.

Lemma canonical_token_kept_witness :
  normalize_sev (JStr "  Medium ") = "MEDIUM".
Proof.
  apply canonical_token_kept; [|reflexivity].
  unfold SEV_ORDER. repeat constructor.
Defined.

(** X8.  Normalising is idempotent: the severity of a finding, read back
    as a token, normalises to itself. *)
Theorem normalize_sev_idempotent (sev : json) :
  normalize_sev (JStr (normalize_sev sev)) = normalize_sev sev.
Proof.
  apply canonical_token; [apply normalize_sev_in_taxonomy|].
  generalize (normalize_sev sev) (normalize_sev_in_taxonomy sev).
  apply taxonomy_cases; vm_compute; reflexivity.
Qed.

(** X9.  On text the normaliser looks only at the trimmed, upper-cased
    token: two texts that agree after trimming and upper-casing get the
    same severity. *)
Theorem normalize_sev_case_and_blank_insensitive (s t : string) :
  Py.upper (Py.strip s) = Py.upper (Py.strip t) →
  normalize_sev (JStr s) = normalize_sev (JStr t).
Proof. intros Heq. by rewrite !normalize_sev_text, Heq. Qed.

Lemma normalize_sev_case_and_blank_insensitive_witness :
  normalize_sev (JStr "crit") = normalize_sev (JStr " CRIT  ").
Proof. apply normalize_sev_case_and_blank_insensitive. reflexivity. Defined.

Lemma strip_keeps_initial (c : ascii) (r : string) :
  Py.isspace c = false → ∃ r', Py.strip (String c r) = String c r'.
Proof.
  intros Hc. unfold Py.strip. cbn [Py.lstrip]. rewrite Hc. cbn [Py.rstrip].
  destruct (Py.rstrip r); rewrite ?Hc; eauto.
Qed.

(** A token whose first character is no blank and, upper-cased, is not
    the initial of a member of the taxonomy or of an alias. *)
Lemma foreign_initial_unspecified (v : json) (c : ascii) (r : string) :
  py_str v = String c r →
  Py.isspace c = false →
  Forall (λ a, Py.upper_char c ≠ a) (String.list_ascii_of_string "CHMLIUS") →
  normalize_sev v = "UNSPECIFIED".
Proof.
  intros Hv Hc Hinit. rewrite normalize_sev_spec. unfold normalize_spec.
  destruct (truthy v); [|done]. rewrite Hv.
  destruct (strip_keeps_initial c r Hc) as [r' ->].
  cbn [Py.upper Py.smap]. cbn [String.list_ascii_of_string] in Hinit.
  repeat match type of Hinit with
         | Forall _ (_ :: _) => apply Forall_cons in Hinit as [? Hinit]
         end.
  assert (Ha : alias_spec (String (Py.upper_char c) (Py.upper r'))
               = String (Py.upper_char c) (Py.upper r')).
  { unfold alias_spec. repeat (case_bool_decide; [congruence|]). done. }
  cbn zeta. rewrite Ha, bool_decide_eq_false_2; [done|].
  intros Hin. revert Hin. unfold SEV_ORDER.
  repeat (intros [?|Hin]%elem_of_cons; [congruence|revert Hin]).
  by intros ?%elem_of_nil.
Qed.

Lemma str_of_Z_initial (z : Z) :
  ∃ c r, Py.str_of_Z z = String c r
         ∧ c ∈ String.list_ascii_of_string "-0123456789".
Proof.
  assert (Hu : ∀ d, ∃ c r, NilZero.string_of_uint d = String c r
                           ∧ c ∈ String.list_ascii_of_string "0123456789").
  { intros []; do 2 eexists; (split; [reflexivity|]); cbn; set_solver. }
  unfold Py.str_of_Z. destruct (Z.to_int z) as [d|d]; cbn.
  - destruct (Hu d) as (c & r & -> & Hc). exists c, r. split; [done|].
    cbn in *. set_solver.
  - do 2 eexists. split; [reflexivity|]. cbn. set_solver.
Qed.

(** X10.  A severity that is not text and not a float, be it a boolean,
    an integer, a list or a mapping, is never mapped into the scale: it
    normalises to UNSPECIFIED. *)
Theorem non_text_severity_unspecified (sev : json) :
  match sev with
  | JStr _ | JFloat _ => True
  | _ => normalize_sev sev = "UNSPECIFIED"
  end.
Proof.
  destruct sev as [|b|z|r|s|l|d]; try done.
  - destruct b; [|done].
    apply (foreign_initial_unspecified _ "T" "rue"); [done|done|].
    repeat constructor; vm_compute; intro; discriminate.
  - destruct (str_of_Z_initial z) as (c & r & Hz & Hc).
    cbn [String.list_ascii_of_string] in Hc.
    apply (foreign_initial_unspecified _ c r); [done|..];
      repeat (apply elem_of_cons in Hc as [->|Hc];
              [solve [reflexivity
                     | repeat constructor; vm_compute; intro; discriminate]|]);
      by apply elem_of_nil in Hc.
  - apply (foreign_initial_unspecified _ "[" (Py.join ", " (map py_repr l) +:+ "]"));
      [done|done|].
    repeat constructor; vm_compute; intro; discriminate.
  - eapply (foreign_initial_unspecified _ "{"); [done|done|].
    repeat constructor; vm_compute; intro; discriminate.
Qed.

(** ** The de-duplicator on distinct and on joined lists *)

Section DedupeMore.
Implicit Types (seen : gset DedupKey) (f g : Finding) (fs : list Finding).

(** Keys seen beforehand only remove findings from the result. *)
Lemma dedupe_loop_union seen (extra : gset DedupKey) fs :
  dedupe_loop (seen ∪ extra) [] fs
  = filter (λ f, dedup_key f ∉ extra) (dedupe_loop seen [] fs).
Proof.
  revert seen. induction fs as [|f fs IH]; intros seen; [done|].
  rewrite !dedupe_loop_cons.
  destruct (decide (dedup_key f ∈ seen)) as [Hs|Hs].
  - rewrite !bool_decide_eq_true_2 by set_solver. apply IH.
  - rewrite (bool_decide_eq_false_2 (_ ∈ seen)) by done. rewrite filter_cons.
    destruct (decide (dedup_key f ∈ extra)) as [He|He].
    + rewrite bool_decide_eq_true_2, decide_False by set_solver.
      rewrite <- IH. f_equal. set_solver.
    + rewrite bool_decide_eq_false_2, decide_True by set_solver.
      rewrite <- IH. do 2 f_equal. set_solver.
Qed.

Lemma filter_none {A} (P : A → Prop) `{!∀ x, Decision (P x)} (l : list A) :
  Forall (λ x, ¬ P x) l → filter P l = [].
Proof.
  induction 1 as [|x l Hx _ IH]; [done|].
  by rewrite filter_cons, decide_False.
Qed.

Lemma dedupe_first_wins_keys fs :
  NoDup (dedup_key <$> dedupe fs)
  ∧ list_to_set (dedup_key <$> dedupe fs) =@{gset DedupKey}
      list_to_set (dedup_key <$> fs).
Proof.
  unfold dedupe. split; [apply dedupe_loop_NoDup|].
  pose proof (dedupe_loop_keys ∅ fs) as H.
  rewrite !(right_id_L ∅ (∪)) in H. exact H.
Qed.

(** X11.  [dedupe] returns its input unchanged exactly when the keys of
    the input are pairwise distinct. *)
Theorem dedupe_fixes_exactly_distinct_keys fs :
  dedupe fs = fs ↔ NoDup (dedup_key <$> fs).
Proof.
  split.
  - intros <-. apply dedupe_loop_NoDup.
  - intros Hnd. apply dedupe_loop_fixed; [done|]. intros f _. set_solver.
Qed.

(** X12.  De-duplicating two lists joined end to end gives the
    de-duplicated first list followed by those survivors of the second
    whose key does not occur in the first; so a list joined to itself
    de-duplicates to what the list alone does. *)
Theorem dedupe_of_joined_lists (fs1 fs2 : list Finding) :
  dedupe (fs1 ++ fs2)
  = dedupe fs1 ++ filter (λ f, dedup_key f ∉ dedup_key <$> fs1) (dedupe fs2)
  ∧ dedupe (fs1 ++ fs1) = dedupe fs1.
Proof.
  unfold dedupe. rewrite !dedupe_loop_app. split.
  - f_equal. rewrite dedupe_loop_union. apply list_filter_iff.
    intros f. by rewrite elem_of_list_to_set.
  - rewrite dedupe_loop_union.
    rewrite <- (app_nil_r (dedupe_loop ∅ [] fs1)) at 3. f_equal.
    apply filter_none, Forall_forall. intros f Hf Hkey. apply Hkey.
    apply elem_of_list_to_set, list_elem_of_fmap_2.
    eapply elem_of_sublist; [done | apply dedupe_loop_sublist].
Qed.

(** X13.  The number of findings that survive is the number of distinct
    keys of the input. *)
Theorem dedupe_length_is_distinct_keys fs :
  length (dedupe fs) = size (list_to_set (dedup_key <$> fs) : gset DedupKey).
Proof.
  destruct (dedupe_first_wins_keys fs) as [Hnd <-].
  by rewrite size_list_to_set, length_fmap.
Qed.

End DedupeMore.

(** ** The list [main] persists *)

Lemma main_loop (acc : list Finding) (files : list (string * json)) :
  foldl main_step acc files
  = acc ++ flat_map (λ file, extract_findings_generic file.2 file.1) files.
Proof.
  revert acc. induction files as [|[stem data] files IH]; intros acc.
  - by rewrite app_nil_r.
  - cbn [foldl flat_map]. rewrite IH. unfold main_step. cbn [fst snd].
    destruct data; [reflexivity | by rewrite app_assoc ..].
Qed.

(** X14.  The persisted list is the de-duplication of the findings of the
    files taken in their order, and a file whose data is [None] (one that
    did not load, or one that holds [null]) leaves it as if the file were
    not there. *)
Theorem main_findings_by_file (files : list (string * json)) :
  main_findings files
  = dedupe (flat_map (λ file, extract_findings_generic file.2 file.1) files)
  ∧ ∀ files' stem,
      main_findings (files ++ (stem, JNull) :: files') = main_findings (files ++ files').
Proof.
  unfold main_findings. split; [by rewrite main_loop|].
  intros files' stem. rewrite !main_loop, !app_nil_l.
  by rewrite !flat_map_app.
Qed.

(** X15.  Every finding of the persisted list names one of the input
    files as its source, has a severity of the taxonomy, and keeps the
    length bounds of its title, description and resource; and no two of
    them share a key. *)
Theorem main_findings_invariant (files : list (string * json)) :
  Forall (λ f, source f ∈ files.*1
               ∧ severity f ∈ SEV_ORDER
               ∧ String.length (title f) ≤ 200
               ∧ String.length (description f) ≤ 2000
               ∧ String.length (resource f) ≤ 500)
    (main_findings files)
  ∧ NoDup (dedup_key <$> main_findings files).
Proof.
  split; [|apply dedupe_loop_NoDup].
  unfold main_findings. rewrite main_loop, app_nil_l.
  apply Forall_forall. intros f Hf.
  assert (Hin := elem_of_sublist _ _ _ Hf (dedupe_loop_sublist ∅ _)).
  clear Hf. apply list_elem_of_In, in_flat_map in Hin as ([stem data] & Hfile & Hin).
  apply list_elem_of_In in Hfile, Hin. cbn [fst snd] in Hin.
  rewrite extract_findings_generic_walk in Hin.
  apply list_elem_of_fmap in Hin as (d & -> & _).
  cbn [finding_of source severity title description resource].
  split_and!; try apply take_length.
  - apply list_elem_of_fmap. by exists (stem, data).
  - apply normalize_sev_in_taxonomy.
Qed.

(** ** The fallback renderer: totals, caps and line ends *)

Section RendererMore.
Implicit Types (fs : list Finding) (f : Finding).

Lemma sev_count_cons (sev : string) f fs :
  sev_count sev (f :: fs)
  = (if decide (severity f = sev) then 1 else 0) + sev_count sev fs.
Proof.
  rewrite !sev_count_full. unfold count_severity. rewrite filter_cons.
  by destruct (decide (severity f = sev)).
Qed.

(** X16.  When every finding has a severity of the taxonomy, as the
    findings of the extractor have, the six counts of the histogram add up
    to the total the summary shows. *)
Theorem histogram_adds_up fs :
  Forall (λ f, severity f ∈ SEV_ORDER) fs →
  sum_list ((λ sev, sev_count sev fs) <$> SEV_ORDER) = length fs.
Proof.
  induction 1 as [|f fs Hf _ IH]; [done|].
  cbn [SEV_ORDER fmap list_fmap sum_list sum_list_with] in IH |- *.
  rewrite !sev_count_cons. cbn [length]. rewrite <- IH. clear IH.
  generalize (sev_count "CRITICAL" fs), (sev_count "HIGH" fs),
    (sev_count "MEDIUM" fs), (sev_count "LOW" fs), (sev_count "INFO" fs),
    (sev_count "UNSPECIFIED" fs).
  revert Hf. generalize (severity f).
  apply (taxonomy_cases (λ m, ∀ a b c d e g : nat, _ = _));
    intros; repeat (case_decide; try congruence); unfold id; lia.
Qed.

Lemma histogram_adds_up_witness :
  sum_list ((λ sev, sev_count sev (main_findings [("a", open_port_a)])) <$> SEV_ORDER)
  = 1.
Proof.
  apply (histogram_adds_up (main_findings [("a", open_port_a)])).
  repeat constructor.
Defined.

Lemma source_groups_are_filters fs :
  Forall (λ entry, entry.2 = filter (λ x, source x = entry.1) fs)
    (sorted_items (by_source fs))
  ∧ (∀ src, src ∈ source <$> fs → src ∈ source_names fs)
  ∧ NoDup (source_names fs).
Proof.
  split_and!.
  - apply Forall_forall. by intros [src items] [-> _]%sorted_items_elem_of.
  - intros src. apply source_names_elem_of.
  - unfold source_names, sorted_items. rewrite merge_sort_Permutation.
    apply NoDup_fst_map_to_list.
Qed.

Lemma count_source_cons (ks : list string) f fs :
  NoDup ks →
  sum_list ((λ k, count_source k (f :: fs)) <$> ks)
  = (if decide (source f ∈ ks) then 1 else 0)
    + sum_list ((λ k, count_source k fs) <$> ks).
Proof.
  induction 1 as [|k ks Hk _ IH]; [done|].
  cbn [fmap list_fmap sum_list sum_list_with]. rewrite IH.
  unfold count_source at 1. rewrite filter_cons.
  destruct (decide (source f = k)) as [<-|Hne].
  - rewrite (decide_False (P := source f ∈ ks)) by done.
    rewrite (decide_True (P := source f ∈ source f :: ks)) by left.
    cbn [length]. unfold count_source, id. lia.
  - destruct (decide (source f ∈ ks)) as [Hin|Hin].
    + rewrite (decide_True (P := source f ∈ k :: ks)) by (by right).
      unfold count_source, id. lia.
    + rewrite (decide_False (P := source f ∈ k :: ks));
        [unfold count_source, id; lia|].
      by intros [?|?]%elem_of_cons.
Qed.

Lemma count_source_total (ks : list string) fs :
  NoDup ks → Forall (λ f, source f ∈ ks) fs →
  sum_list ((λ k, count_source k fs) <$> ks) = length fs.
Proof.
  intros Hks. induction 1 as [|f fs Hf _ IH].
  - clear Hks. induction ks as [|k ks IHks]; [done|].
    rewrite fmap_cons. exact IHks.
  - rewrite count_source_cons, decide_True by done. cbn [length]. by rewrite IH.
Qed.

(** X17.  The counts shown in the headings of the by-source section add
    up to the total number of findings: every finding is counted under
    exactly one source. *)
Theorem source_headings_add_up fs :
  sum_list ((λ entry, length entry.2) <$> sorted_items (by_source fs)) = length fs.
Proof.
  destruct (source_groups_are_filters fs) as (Hentries & Hset & Hnd).
  rewrite <- (count_source_total (source_names fs) fs Hnd).
  - unfold source_names. rewrite <- list_fmap_compose. f_equal.
    apply list_fmap_ext. intros i entry Hi. cbn.
    rewrite Forall_forall in Hentries.
    rewrite (Hentries entry) at 1; [done|]. by eapply list_elem_of_lookup_2.
  - apply Forall_forall. intros f Hf. apply Hset.
    by apply list_elem_of_fmap_2.
Qed.

Lemma flat_map_length_le {A B} (F : A → list B) (bound : nat) (l : list A) :
  (∀ a, length (F a) ≤ bound) → length (flat_map F l) ≤ bound * length l.
Proof.
  intros HF. induction l as [|a l IH]; cbn [flat_map length]; [lia|].
  rewrite length_app. specialize (HF a). lia.
Qed.

(** X18.  The listings are cut, the headings are not.  Counting the
    entries of the list [lines] that the renderer joins (an entry is one
    appended text; the section titles carry line breaks of their own and
    a title may hold more): a source block is its heading and at most 30
    entries, a severity block is absent when the severity has no finding
    and is otherwise its heading and at most 50 entries; so [lines] has at
    most 323 entries and 31 more for each source, however many findings
    there are. *)
Theorem report_entries_are_bounded fs :
  (∀ entry, length (source_block entry) = S (min 30 (length entry.2)))
  ∧ (∀ sev, length (severity_block fs sev)
            = if bool_decide (count_severity sev fs = 0) then 0
              else S (min 50 (count_severity sev fs)))
  ∧ length (report_lines fs) ≤ 323 + 31 * length (source_names fs).
Proof.
  assert (Hsrc : ∀ entry, length (source_block entry) = S (min 30 (length entry.2))).
  { intros entry. unfold source_block. cbn [length].
    by rewrite length_map, length_take. }
  assert (Hsev : ∀ sev, length (severity_block fs sev)
                        = if bool_decide (count_severity sev fs = 0) then 0
                          else S (min 50 (count_severity sev fs))).
  { intros sev. unfold severity_block, count_severity.
    destruct (filter (λ x, severity x = sev) fs) as [|x l]; [done|].
    rewrite bool_decide_eq_false_2 by done. cbn [length].
    by rewrite length_map, length_take. }
  split_and!; [done..|].
  unfold report_lines, summary_lines, source_lines, severity_lines, action_lines.
  rewrite !length_app. cbn [length]. rewrite length_map.
  pose proof (flat_map_length_le source_block 31 (sorted_items (by_source fs))) as H1.
  pose proof (flat_map_length_le (severity_block fs) 51 SEV_ORDER) as H2.
  unfold source_names. rewrite length_fmap.
  assert (length SEV_ORDER = 6) as Hsix by done. rewrite Hsix in *.
  lapply H1; [|intros e; rewrite Hsrc; lia].
  lapply H2; [|intros s; rewrite Hsev; case_bool_decide; lia].
  lia.
Qed.

Lemma append_empty (s t : string) : s +:+ t = EmptyString → t = EmptyString.
Proof. by destruct s. Qed.

(** Trailing blanks are looked for in the last piece first. *)
Lemma rstrip_append (s t : string) :
  Py.rstrip (s +:+ t)
  = if bool_decide (Py.rstrip t = EmptyString) then Py.rstrip s
    else s +:+ Py.rstrip t.
Proof.
  induction s as [|c s IH].
  - change (EmptyString +:+ ?x) with x.
    case_bool_decide as Ht; [by rewrite Ht | done].
  - rewrite !append_cons. cbn [Py.rstrip]. rewrite IH.
    case_bool_decide as Ht; [done|].
    destruct (s +:+ Py.rstrip t) eqn:E; [|done].
    by apply append_empty in E.
Qed.

(** X19.  A line of the by-source listing never keeps trailing blanks:
    when the resource of the finding is empty or blank the line ends with
    the dash, otherwise with the resource less its trailing blanks. *)
Theorem source_line_has_no_trailing_blank f :
  source_line f
  = "- [" +:+ severity f +:+ "] " +:+ title f +:+ " " +:+ emdash
      +:+ (if bool_decide (Py.rstrip (resource f) = EmptyString) then EmptyString
           else " " +:+ Py.rstrip (resource f)).
Proof.
  unfold source_line, Py.strip.
  change ("- [" +:+ ?r) with (String "-" (" [" +:+ r)).
  cbn [Py.lstrip].
  change (Py.isspace "-") with false. cbn iota.
  change (String "-" (" [" +:+ ?r)) with ("- [" +:+ r).
  rewrite <- !append_assoc.
  rewrite (rstrip_append _ (resource f)).
  case_bool_decide as Hres; [|by rewrite !append_assoc].
  rewrite (rstrip_append _ " ").
  rewrite bool_decide_eq_true_2 by done.
  rewrite (rstrip_append _ emdash).
  rewrite bool_decide_eq_false_2 by done.
  change (Py.rstrip emdash) with emdash.
  rewrite !append_assoc. f_equal.
Qed.

End RendererMore.

(** ** The text the collaborator call returns *)

Lemma rstrip_keeps_initial (c : ascii) (r : string) :
  Py.isspace c = false → ∃ r', Py.rstrip (String c r) = String c r'.
Proof. intros Hc. cbn [Py.rstrip]. destruct (Py.rstrip r); rewrite ?Hc; eauto. Qed.

Lemma lstrip_initial (s : string) :
  Py.lstrip s = EmptyString
  ∨ ∃ c r, Py.lstrip s = String c r ∧ Py.isspace c = false.
Proof.
  induction s as [|c s IH]; [by left|]. cbn [Py.lstrip].
  destruct (Py.isspace c) eqn:Hc; [done|]. right. eauto.
Qed.

Lemma rstrip_idempotent (s : string) : Py.rstrip (Py.rstrip s) = Py.rstrip s.
Proof.
  induction s as [|c s IH]; [done|]. cbn [Py.rstrip].
  destruct (Py.rstrip s) as [|a r] eqn:E.
  - destruct (Py.isspace c) eqn:Hc; [done|]. cbn [Py.rstrip]. by rewrite Hc.
  - cbn [Py.rstrip] in IH |- *. by rewrite IH.
Qed.

Lemma strip_idempotent (s : string) : Py.strip (Py.strip s) = Py.strip s.
Proof.
  unfold Py.strip. destruct (lstrip_initial s) as [->|(c & r & -> & Hc)]; [done|].
  destruct (rstrip_keeps_initial c r Hc) as [r' Hr]. rewrite Hr.
  cbn [Py.lstrip]. rewrite Hc, <- Hr. apply rstrip_idempotent.
Qed.

Section CallMore.
Variable exchange : string → string → string → result json.

(** X20.  A text that [call_local_llm_ollama] returns has no blanks at
    either end: stripping it again changes nothing. *)
Theorem call_result_is_stripped (prompt model url md : string) :
  call_local_llm_ollama exchange prompt model url = Ok md →
  Py.strip md = md.
Proof.
  unfold call_local_llm_ollama.
  destruct (exchange model prompt url) as [[| | | | | |d]|e]; try discriminate.
  destruct (default (JStr EmptyString) (lookup_key "response" d));
    try discriminate.
  intros [= <-]. apply strip_idempotent.
Qed.

End CallMore.

Lemma call_result_is_stripped_witness :
  Py.strip "# Report" = "# Report".
Proof.
  apply (call_result_is_stripped
           (λ _ _ _, Ok (JDict [("response", JStr "  # Report ")]))
           "prompt" "llama3.1" "url").
  reflexivity.
Defined.

(** ** The report generator: the text printed from a response *)

Section MalgusOut.
Import Malgus.

Lemma texts_well_formed (segments : list json) :
  Forall well_formed_segment segments →
  ∃ vs, texts segments = Ok vs
        ∧ ∀ i, joinable i vs = Ok (omap kept_text segments).
Proof.
  induction 1 as [|p segments Hp _ (vs & Hvs & Hjoin)]; [by exists []|].
  destruct p as [| | | | | |pd]; try done.
  cbn [texts omap list_omap kept_text well_formed_segment] in *.
  destruct (eq_text (get pd "type") "text").
  - destruct Hp as [s Hs]; [done|]. rewrite Hs, Hvs.
    exists (JStr s :: vs). split; [done|]. intros i.
    cbn [joinable]. by rewrite Hjoin.
  - by exists vs.
Qed.

(** X21.  When the decoded response is a mapping whose [content] is a
    list of well-formed segments (or is missing), the text printed is the
    texts of the segments of type [text], in order, one per line; the
    segments of any other type contribute nothing, whatever they hold. *)
Theorem out_of_well_formed_response (d : dict) (segments : list json) :
  default (JList []) (lookup_key "content" d) = JList segments →
  Forall well_formed_segment segments →
  out (JDict d) = Ok (Py.join Py.newline (omap kept_text segments)).
Proof.
  intros Hcontent Hwf. unfold out. rewrite Hcontent. cbn [iterate mbind result_bind].
  destruct (texts_well_formed segments Hwf) as (vs & -> & Hjoin).
  cbn [mbind result_bind]. by rewrite Hjoin.
Qed.

Lemma out_of_well_formed_response_witness :
  out (JDict [("id", JStr "msg_1");
              ("content",
               JList [JDict [("type", JStr "text"); ("text", JStr "# Report")];
                      JDict [("type", JStr "tool_use"); ("name", JStr "search")];
                      JDict [("type", JStr "text"); ("text", JStr "Unknown")]])])
  = Ok ("# Report" +:+ Py.newline +:+ "Unknown").
Proof.
  apply (out_of_well_formed_response _
           [JDict [("type", JStr "text"); ("text", JStr "# Report")];
            JDict [("type", JStr "tool_use"); ("name", JStr "search")];
            JDict [("type", JStr "text"); ("text", JStr "Unknown")]]);
    [reflexivity|].
  repeat constructor; cbn; intros; try discriminate; eauto.
Defined.

Lemma texts_first_bad (pre post : list json) (p : json) :
  Forall well_formed_segment pre →
  match p with
  | JDict pd => eq_text (get pd "type") "text" = true ∧ lookup_key "text" pd = None
  | _ => True
  end →
  texts (pre ++ p :: post)
  = Raise (match p with JDict _ => "'text'" | _ => no_attribute p "get" end).
Proof.
  intros Hwf Hp. induction Hwf as [|q pre Hq _ IH].
  - destruct p as [| | | | | |pd]; try reflexivity.
    destruct Hp as [Htype Htext]. cbn [app texts]. by rewrite Htype, Htext.
  - destruct q as [| | | | | |qd]; try done.
    cbn [app texts well_formed_segment] in *. rewrite IH.
    destruct (eq_text (get qd "type") "text"); [|done].
    by destruct Hq as [s ->].
Qed.

(** X22.  The first segment that is not well formed decides the failure:
    after well-formed segments, a segment that is no mapping raises the
    missing [get], and a mapping of type [text] with no [text] entry
    raises the missing key, whatever follows. *)
Theorem out_fails_at_first_bad_segment (d : dict) (pre post : list json) (p : json) :
  default (JList []) (lookup_key "content" d) = JList (pre ++ p :: post) →
  Forall well_formed_segment pre →
  match p with
  | JDict pd => eq_text (get pd "type") "text" = true ∧ lookup_key "text" pd = None
  | _ => True
  end →
  out (JDict d)
  = Raise (match p with JDict _ => "'text'" | _ => no_attribute p "get" end).
Proof.
  intros Hcontent Hwf Hp. unfold out. rewrite Hcontent.
  cbn [iterate mbind result_bind].
  by rewrite (texts_first_bad pre post p Hwf Hp).
Qed.

Lemma out_fails_at_first_bad_segment_witness :
  out (JDict [("content",
               JList [JDict [("type", JStr "text"); ("text", JStr "# Report")];
                      JDict [("type", JStr "text")];
                      JInt 7])])
  = Raise "'text'".
Proof.
  apply (out_fails_at_first_bad_segment _
           [JDict [("type", JStr "text"); ("text", JStr "# Report")]] [JInt 7]
           (JDict [("type", JStr "text")])); [reflexivity| |by split].
  repeat constructor. cbn. eauto.
Defined.

Section MalgusMain.
Variable load_json : string → result json.
Variable read_text : string → result string.
Variable invoke_model : string → json → result json.

(** X23.  [main] stops with the usage line and status 1 exactly when it
    gets fewer than three arguments after the program name, and it looks
    at nothing beyond the third. *)
Theorem main_usage_guard :
  (∀ argv, main load_json read_text invoke_model argv = Exit 1 usage
           ↔ length argv < 4)
  ∧ ∀ prog model_id evidence_path template_path rest,
      main load_json read_text invoke_model
        (prog :: model_id :: evidence_path :: template_path :: rest)
      = main load_json read_text invoke_model
          [prog; model_id; evidence_path; template_path].
Proof.
  split; [|done].
  intros argv. unfold main. case_bool_decide as Hlen; [done|]. split; [|done].
  destruct argv as [|a0 [|a1 [|a2 [|a3 rest]]]]; cbn in Hlen; try lia.
  by destruct (run _ _ _ _ _ _).
Qed.

End MalgusMain.
End MalgusOut.
